(** * csi-driver-host-path: the LVM volume manager (pkg/hostpath/lvm.go)

    A shallow embedding of [pkg/hostpath/lvm.go] and the properties of its
    volume lifecycle: size parsing, classification of the results of the
    external commands, and the order in which the commands are issued.

    Conventions of the embedding:
    - a Go [string] is a Rocq [string] (a sequence of bytes);
    - [int64] and [uint64] are [Z] with the wrap-around written out;
    - a Go result [(v, err)] is a [Result]; a pointer that may be [nil]
      next to a [nil] error is an [option] under [Ok];
    - every error message of the file is one constructor of [error];
    - running an external command and creating a directory are the two
      effects of the file; a function that performs them is a [Prog], a
      finite tree of requests, which a [Host] answers.  The
      [context.Context] argument only reaches [exec.CommandContext]; its
      cancellation shows as an error of the command, so it is not a
      parameter here. *)

From Stdlib Require Import ZArith String Ascii List Bool Lia.
From Stdlib Require Import DecimalString DecimalPos DecimalN DecimalZ.
Import ListNotations.
Local Open Scope string_scope.
Local Open Scope Z_scope.

Set Implicit Arguments.

(** ** Go's [strings] package, as far as the file uses it *)

Module strings.

(** [strings.HasSuffix]:
    [len(s) >= len(suffix) && s[len(s)-len(suffix):] == suffix]. *)
Definition HasSuffix (s suffix : string) : bool :=
  (String.length suffix <=? String.length s)%nat
  && String.eqb
       (substring (String.length s - String.length suffix)
                  (String.length suffix) s)
       suffix.

(** [strings.TrimSuffix]:
    [if HasSuffix(s, suffix) { return s[:len(s)-len(suffix)] }; return s]. *)
Definition TrimSuffix (s suffix : string) : string :=
  if HasSuffix s suffix
  then substring 0 (String.length s - String.length suffix) s
  else s.

(** [strings.Contains]: [substr] occurs in [s] at some offset. *)
Fixpoint Contains (s substr : string) : bool :=
  String.prefix substr s
  || match s with
     | EmptyString => false
     | String _ s' => Contains s' substr
     end.

(** [strings.HasPrefix]:
    [len(s) >= len(prefix) && s[:len(prefix)] == prefix]. *)
Definition HasPrefix (s prefix : string) : bool :=
  (String.length prefix <=? String.length s)%nat
  && String.eqb (substring 0 (String.length prefix) s) prefix.

(** [strings.TrimPrefix]:
    [if HasPrefix(s, prefix) { return s[len(prefix):] }; return s]. *)
Definition TrimPrefix (s prefix : string) : string :=
  if HasPrefix s prefix
  then substring (String.length prefix)
                 (String.length s - String.length prefix) s
  else s.

(** [strings.Split(s, sep)] at a separator of one byte, the way the file
    calls it: the pieces of [s] between the occurrences of [sep], one
    more than there are occurrences, so that a string without [sep], the
    empty one as well, gives the one piece [s]. *)
Fixpoint Split (s : string) (sep : ascii) : list string :=
  match s with
  | EmptyString => [EmptyString]
  | String c rest =>
      if Ascii.eqb c sep then EmptyString :: Split rest sep
      else
        match Split rest sep with
        | piece :: pieces => String c piece :: pieces
        | [] => [String c EmptyString]
        end
  end.

End strings.

(** ** Go's [strconv.ParseInt], at base 10 and bit size 64 *)

Module strconv.

Inductive NumError : Type :=
| ErrSyntax
| ErrRange.

Definition maxUint64 : Z := 2 ^ 64 - 1.

(** The byte of a character, as [uint8]. *)
Definition byte_of (c : ascii) : Z := Z.of_N (N_of_ascii c).

(** [lower(c) = c | ('x' - 'X')]. *)
Definition lower (c : Z) : Z := Z.lor c 32.

(** The value of one digit in [ParseUint]'s loop; [None] is the
    [default] branch of its switch.  The underscore case needs base 0. *)
Definition digit_val (c : ascii) : option Z :=
  let b := byte_of c in
  if (48 <=? b) && (b <=? 57) then Some (b - 48)
  else if (97 <=? lower b) && (lower b <=? 122) then Some (lower b - 97 + 10)
  else None.

(** The loop of [ParseUint(s, 10, 64)] over the bytes of [s], [n] being
    the accumulator ([uint64], so the products and sums wrap). *)
Fixpoint ParseUint_loop (s : string) (n : Z) : NumError + Z :=
  match s with
  | EmptyString => inr n
  | String c s' =>
      match digit_val c with
      | None => inl ErrSyntax
      | Some d =>
          if 10 <=? d then inl ErrSyntax
          else if maxUint64 / 10 + 1 <=? n then inl ErrRange
          else
            let n10 := (n * 10) mod 2 ^ 64 in
            let n1 := (n10 + d) mod 2 ^ 64 in
            if (n1 <? n10) || (maxUint64 <? n1) then inl ErrRange
            else ParseUint_loop s' n1
      end
  end.

Definition ParseUint (s : string) : NumError + Z :=
  match s with
  | EmptyString => inl ErrSyntax
  | _ => ParseUint_loop s 0
  end.

(** The conversion [int64(z)]: the value of [z] modulo [2^64] in
    [-2^63, 2^63). *)
Definition int64 (z : Z) : Z := (z + 2 ^ 63) mod 2 ^ 64 - 2 ^ 63.

(** [ParseInt(s, 10, 64)]: a leading sign is picked off, the rest is
    converted unsigned and checked against the range of [int64].  The
    value that Go returns next to an error is dropped: the caller below
    reads it only when the error is [nil]. *)
Definition ParseInt (s : string) : NumError + Z :=
  match s with
  | EmptyString => inl ErrSyntax
  | String c0 rest =>
      let neg := Ascii.eqb c0 "-" in
      let s1 := if Ascii.eqb c0 "+" then rest
                else if Ascii.eqb c0 "-" then rest else s in
      match ParseUint s1 with
      | inl e => inl e
      | inr un =>
          let cutoff := 2 ^ 63 in
          if negb neg && (cutoff <=? un) then inl ErrRange
          else if neg && (cutoff <? un) then inl ErrRange
          else
            let n := int64 un in
            inr (if neg then int64 (- n) else n)
      end
  end.

End strconv.

(** ** Results and errors *)

Inductive Result (E A : Type) : Type :=
| Ok (a : A)
| Err (e : E).
Arguments Ok {E A} a.
Arguments Err {E A} e.

(** ** The report of [lvs] *)

Record reportLV : Type := {
  LogicalVolumeName : string;   (* json:"lv_name" *)
  LogicalVolumeSize : string;   (* json:"lv_size" *)
  LogicalVolumeTags : string    (* json:"lv_tags" *)
}.

Record report : Type := {
  LogicalVolumes : list reportLV   (* json:"lv" *)
}.

Record reportWrapper : Type := {
  Reports : list report   (* json:"report" *)
}.

Record LVMVolume : Type := {
  volumePath : string;
  info : reportLV
}.

(** Errors of [VolumeSizeBytes]. *)
Inductive SizeError : Type :=
| UnknownSuffix (s : string)
    (* "cannot parse size %q (unknown suffix)" *)
| ParsingSize (s : string) (e : strconv.NumError).
    (* "error parsing size %q: %w" *)

(** [func (r *LVMVolume) VolumeSizeBytes() (int64, error)] *)
Definition VolumeSizeBytes (r : LVMVolume) : Result SizeError Z :=
  let s := LogicalVolumeSize (info r) in
  let suffixed :=
    if strings.HasSuffix s "B" then Some (strings.TrimSuffix s "B", 1)
    else if strings.HasSuffix s "b" then Some (strings.TrimSuffix s "b", 1)
    else None in
  match suffixed with
  | None => Err (UnknownSuffix s)
  | Some (s', multiplier) =>
      match strconv.ParseInt s' with
      | inl err => Err (ParsingSize (LogicalVolumeSize (info r)) err)
      | inr n => Ok (strconv.int64 (n * multiplier))
      end
  end.


(** The loop of [FindTag] over the pieces of the tag string. *)
Fixpoint FindTag_range (kvs : list string) (key : string) : string * bool :=
  match kvs with
  | [] => (EmptyString, false)
  | kv :: rest =>
      if strings.HasPrefix kv (key ++ "=")
      then
        let v := strings.TrimPrefix kv (key ++ "=") in
        (v, true)
      else FindTag_range rest key
  end.

(** [func (r *reportLV) FindTag(key string) (string, bool)] *)
Definition FindTag (r : reportLV) (key : string) : string * bool :=
  FindTag_range (strings.Split (LogicalVolumeTags r) ",") key.

(** [func (l *LVMVolume) GetVolumePath() string] *)
Definition GetVolumePath (l : LVMVolume) : string := volumePath l.

(** ** The two effects: external commands and directories *)

(** An [*exec.Cmd]: [Args] holds the command name followed by its
    arguments, as [exec.Command] builds it. *)
Record Cmd : Type := {
  Path : string;
  Args : list string
}.

Definition Command (name : string) (arg : list string) : Cmd :=
  {| Path := name; Args := name :: arg |}.

(** The error of [c.Run()] when it is not [nil]: an [*exec.ExitError]
    carrying the exit code of the process ([-1] when it was killed by a
    signal), or an error of any other type (the command could not be
    started, the context was cancelled before the start, an I/O error
    on the pipes). *)
Inductive RunError : Type :=
| ExitError (ExitCode : Z)
| OtherRunError.

(** What one finished [c.Run()] leaves behind: both captured streams and
    the error. *)
Record Completed : Type := {
  stdout : string;
  stderr : string;
  runErr : option RunError
}.

(** The error of [os.MkdirAll]. *)
Inductive PathError : Type :=
| MkdirFailed.

(** A function of the file that talks to the host: it returns, or runs a
    command and goes on with what the command left, or creates a directory
    and goes on with the error of that. *)
Inductive Prog (A : Type) : Type :=
| Ret (a : A)
| Run (c : Cmd) (k : Completed -> Prog A)
| MkdirAll (path : string) (perm : Z) (k : option PathError -> Prog A).
Arguments Ret {A} a.
Arguments Run {A} c k.
Arguments MkdirAll {A} path perm k.

Fixpoint bind {A B : Type} (p : Prog A) (f : A -> Prog B) : Prog B :=
  match p with
  | Ret a => f a
  | Run c k => Run c (fun o => bind (k o) f)
  | MkdirAll path perm k => MkdirAll path perm (fun e => bind (k e) f)
  end.

Notation "x <- p ;; q" := (bind p (fun x => q))
  (at level 61, p at next level, right associativity).

(** One request to the host, as a test double of the host records it. *)
Inductive Call : Type :=
| Ran (c : Cmd)
| MadeDir (path : string) (perm : Z).

(** A host answers the requests and changes as it does. *)
Record Host (W : Type) : Type := {
  host_run : Cmd -> W -> Completed * W;
  host_mkdir : string -> Z -> W -> option PathError * W
}.

(** [exec h p w]: the result of [p] on host [h] started in state [w], the
    state of the host afterwards, and the requests in the order made. *)
Fixpoint exec {W A : Type} (h : Host W) (p : Prog A) (w : W)
  : A * W * list Call :=
  match p with
  | Ret a => (a, w, [])
  | Run c k =>
      let '(o, w1) := host_run h c w in
      let '(a, w2, calls) := exec h (k o) w1 in
      (a, w2, Ran c :: calls)
  | MkdirAll path perm k =>
      let '(e, w1) := host_mkdir h path perm w in
      let '(a, w2, calls) := exec h (k e) w1 in
      (a, w2, MadeDir path perm :: calls)
  end.

Definition result_of {A W : Type} (x : A * W * list Call) : A := fst (fst x).
Definition world_of {A W : Type} (x : A * W * list Call) : W := snd (fst x).
Definition calls_of {A W : Type} (x : A * W * list Call) : list Call := snd x.

(** ** [encoding/json] *)

(** The error of [json.Unmarshal]: the input is not a JSON text, or a
    JSON value does not fit the Go type it is decoded into. *)
Inductive JSONError : Type :=
| SyntaxError
| UnmarshalTypeError.

(** [json.Unmarshal(data, &reportWrapper{})] belongs to Go's library.
    The functions below take it as a parameter. *)
Definition Unmarshaler : Type := string -> Result JSONError reportWrapper.

(** ** Errors of the volume manager, one constructor per message *)

Inductive error : Type :=
| ErrRunningCommand (c : Cmd) (out err : string) (e : RunError)
    (* "error running command %v (stdout=%q, stderr=%q): %w" *)
| ErrParsingOutput (c : Cmd) (out err : string) (e : JSONError)
    (* "error parsing output from command %v (stdout=%q, stderr=%q): %w" *)
| ErrReportCount (c : Cmd) (out err : string) (n : nat)
    (* "error parsing output from command %v (stdout=%q, stderr=%q):
        got %d reports, expected exactly 1" *)
| ErrMultipleLVs (n : nat)
    (* "unexpectedly found multiple logical volumes, found %d" *)
| ErrCreatingMountDir (mountPath : string) (e : PathError)
    (* "error creating mount directory %q: %w" *)
| ErrFormatting (e : error)
    (* "error formatting volume: %w" *)
| ErrGettingLVInfo (e : error)
    (* "error getting lv info for newly created volume: %w" *)
| ErrNoLVInfo (lvName : string).
    (* "could not find LV info for newly created volume %q" *)

(** ** The volume manager *)

Record LVM : Type := {
  vg : string;
  thinpool : string
}.

Definition NewLVM (vg thinpool : string) : LVM :=
  {| vg := vg; thinpool := thinpool |}.

Definition is_empty (s : string) : bool :=
  match s with
  | EmptyString => true
  | _ => false
  end.

Section Manager.

Variable Unmarshal : Unmarshaler.

(** [func runLVSReport(ctx, volumeName string)], returning [*report] and
    [error]. *)
Definition runLVSReport (volumeName : string) : Prog (Result error report) :=
  let args := ["--reportformat=json";
               "--options=lv_tags,lv_name,lv_size";
               "--units=b"] in
  let args := if negb (is_empty volumeName) then (args ++ [volumeName])%list
              else args in
  let c := Command "/sbin/lvs" args in
  o <- Run c Ret ;;
  let failed :=
    match runErr o with
    | Some err =>
        let isNotFound :=
          match err with
          | ExitError exitCode =>
              (exitCode =? 5)
              && strings.Contains (stderr o) "Failed to find logical volume"
          | OtherRunError => false
          end in
        let isNotFound := if is_empty volumeName then false else isNotFound in
        if negb isNotFound
        then Some (ErrRunningCommand c (stdout o) (stderr o) err)
        else None
    | None => None
    end in
  match failed with
  | Some e => Ret (Err e)
  | None =>
      match Unmarshal (stdout o) with
      | Err err => Ret (Err (ErrParsingOutput c (stdout o) (stderr o) err))
      | Ok r =>
          match Reports r with
          | [r0] => Ret (Ok r0)
          | _ =>
              Ret (Err (ErrReportCount c (stdout o) (stderr o)
                          (List.length (Reports r))))
          end
      end
  end.

(** [func findLVInfo(ctx, vgName, lvName string)], returning [*reportLV]
    and [error]. *)
Definition findLVInfo (vgName lvName : string)
  : Prog (Result error (option reportLV)) :=
  r <- runLVSReport (vgName ++ "/" ++ lvName) ;;
  match r with
  | Err err => Ret (Err err)
  | Ok report =>
      if (1 <? List.length (LogicalVolumes report))%nat
      then Ret (Err (ErrMultipleLVs (List.length (LogicalVolumes report))))
      else
        match LogicalVolumes report with
        | [] => Ret (Ok None)
        | lv0 :: _ => Ret (Ok (Some lv0))
        end
  end.

(** [func ensureMountLV(ctx, vgName, lvName, mountPath string) error].
    The [klog.Infof] line of the already-mounted branch only logs. *)
Definition ensureMountLV (vgName lvName mountPath : string)
  : Prog (option error) :=
  let lvPath := "/dev/" ++ vgName ++ "/" ++ lvName in
  e <- MkdirAll mountPath 511 Ret ;;
  match e with
  | Some err => Ret (Some (ErrCreatingMountDir mountPath err))
  | None =>
      let args := ["--make-shared"; "-t"; "ext4"; lvPath; mountPath] in
      let c := Command "/bin/mount" args in
      o <- Run c Ret ;;
      match runErr o with
      | Some err =>
          let isAlreadyMounted :=
            match err with
            | ExitError exitCode =>
                (exitCode =? 32)
                && strings.Contains (stderr o) "already mounted on"
            | OtherRunError => false
            end in
          if negb isAlreadyMounted
          then Ret (Some (ErrRunningCommand c (stdout o) (stderr o) err))
          else Ret None
      | None => Ret None
      end
  end.

(** [func ensureUnmountLV(ctx, vgName, lvName, mountPath string) error] *)
Definition ensureUnmountLV (vgName lvName mountPath : string)
  : Prog (option error) :=
  let args := [mountPath] in
  let c := Command "/bin/umount" args in
  o <- Run c Ret ;;
  match runErr o with
  | Some err => Ret (Some (ErrRunningCommand c (stdout o) (stderr o) err))
  | None => Ret None
  end.

(** [func mkfsExt4(ctx, vgName, lvName string) error] *)
Definition mkfsExt4 (vgName lvName : string) : Prog (option error) :=
  let devicePath := "/dev/" ++ vgName ++ "/" ++ lvName in
  let label := lvName in
  let args := ["-L"; label; devicePath] in
  let c := Command "/sbin/mkfs.ext4" args in
  o <- Run c Ret ;;
  match runErr o with
  | Some err => Ret (Some (ErrRunningCommand c (stdout o) (stderr o) err))
  | None => Ret None
  end.

(** [func (l *LVM) findVolumeByLVName(ctx, lvName string)], returning
    [*LVMVolume] and [error]. *)
Definition findVolumeByLVName (l : LVM) (lvName : string)
  : Prog (Result error (option LVMVolume)) :=
  r <- findLVInfo (vg l) lvName ;;
  match r with
  | Err err => Ret (Err err)
  | Ok None => Ret (Ok None)
  | Ok (Some lvInfo) =>
      let volumePath := "/volumes/" ++ vg l ++ "/" ++ lvName in
      let vol := {| volumePath := volumePath; info := lvInfo |} in
      e <- ensureMountLV (vg l) (LogicalVolumeName (info vol)) volumePath ;;
      match e with
      | Some err => Ret (Err err)
      | None => Ret (Ok (Some vol))
      end
  end.

(** [func (l *LVM) findVolumeByVolumeID(ctx, volumeID string)], returning
    [*LVMVolume] and [error].  The volume ID is the LV name. *)
Definition findVolumeByVolumeID (l : LVM) (volumeID : string)
  : Prog (Result error (option LVMVolume)) :=
  let lvName := volumeID in
  findVolumeByLVName l lvName.

(** [func (l *LVM) createThinLV(ctx, lvName, size string, tags []string)],
    returning [*LVMVolume] and [error]. *)
Definition createThinLV (l : LVM) (lvName size : string) (tags : list string)
  : Prog (Result error (option LVMVolume)) :=
  let args := ["--virtualsize"; size;
               "--thinpool"; thinpool l;
               vg l;
               "--thin";
               "--type"; "thin";
               "--name"; lvName] in
  let args :=
    fold_left (fun args tag => (args ++ ["--addtag"; tag])%list) tags args in
  let c := Command "/sbin/lvcreate" args in
  o <- Run c Ret ;;
  match runErr o with
  | Some err => Ret (Err (ErrRunningCommand c (stdout o) (stderr o) err))
  | None =>
      e <- mkfsExt4 (vg l) lvName ;;
      match e with
      | Some err =>
          (* TODO: Delete the LV *)
          Ret (Err (ErrFormatting err))
      | None =>
          r <- findVolumeByLVName l lvName ;;
          match r with
          | Err err => Ret (Err (ErrGettingLVInfo err))
          | Ok None => Ret (Err (ErrNoLVInfo lvName))
          | Ok (Some lv) => Ret (Ok (Some lv))
          end
      end
  end.

(** [func (l *LVM) deleteLV(ctx, volume *LVMVolume) error] *)
Definition deleteLV (l : LVM) (volume : LVMVolume) : Prog (option error) :=
  e <- ensureUnmountLV (vg l) (LogicalVolumeName (info volume))
                       (volumePath volume) ;;
  match e with
  | Some err => Ret (Some err)
  | None =>
      let args := ["--yes"; vg l ++ "/" ++ LogicalVolumeName (info volume)] in
      let c := Command "/sbin/lvremove" args in
      o <- Run c Ret ;;
      match runErr o with
      | Some err => Ret (Some (ErrRunningCommand c (stdout o) (stderr o) err))
      | None => Ret None
      end
  end.

End Manager.

(** ** A JSON decoder to instantiate [Unmarshal] with

    The properties below hold for every decoder.  Their instances need
    one: [json.Unmarshal] reads a JSON text into a tree and fills the
    three structs from it by the rules of [encoding/json] (keys match
    field tags without regard to case, [null] leaves the zero value, a
    value of the wrong kind is an [UnmarshalTypeError], unknown keys are
    skipped).  It is narrower than Go's: a text with a byte above 127, a
    [\u] escape or a key that occurs twice in one object is refused, where
    Go has rules of its own. *)

Module json.

#[warnings="-register-all"]
Inductive value : Type :=
| Null
| Bool (b : bool)
| Number (lit : string)
| Str (s : string)
| Array (elems : list value)
| Object (members : list (string * value)).

Definition quote : ascii := "034"%char.
Definition backslash : ascii := "092"%char.

Definition is_space (c : ascii) : bool :=
  Ascii.eqb c " " || Ascii.eqb c "009" || Ascii.eqb c "010"
  || Ascii.eqb c "013".

Definition is_digit (c : ascii) : bool :=
  let b := N_of_ascii c in (48 <=? b)%N && (b <=? 57)%N.

Fixpoint skip_space (s : string) : string :=
  match s with
  | String c rest => if is_space c then skip_space rest else s
  | EmptyString => s
  end.

Definition unescape (c : ascii) : option ascii :=
  if Ascii.eqb c quote then Some quote
  else if Ascii.eqb c backslash then Some backslash
  else if Ascii.eqb c "/" then Some "/"%char
  else if Ascii.eqb c "b" then Some "008"%char
  else if Ascii.eqb c "f" then Some "012"%char
  else if Ascii.eqb c "n" then Some "010"%char
  else if Ascii.eqb c "r" then Some "013"%char
  else if Ascii.eqb c "t" then Some "009"%char
  else None.

(** The characters of a string literal, after its opening quote. *)
Fixpoint scan_chars (s : string) : option (string * string) :=
  match s with
  | EmptyString => None
  | String c rest =>
      if Ascii.eqb c quote then Some (EmptyString, rest)
      else if Ascii.eqb c backslash then
        match rest with
        | String e rest' =>
            match unescape e, scan_chars rest' with
            | Some ch, Some (str, r) => Some (String ch str, r)
            | _, _ => None
            end
        | EmptyString => None
        end
      else if (N_of_ascii c <? 32)%N || (127 <? N_of_ascii c)%N then None
      else
        match scan_chars rest with
        | Some (str, r) => Some (String c str, r)
        | None => None
        end
  end.

Fixpoint span_digits (s : string) : string * string :=
  match s with
  | String c rest =>
      if is_digit c
      then let '(ds, r) := span_digits rest in (String c ds, r)
      else (EmptyString, s)
  | EmptyString => (EmptyString, s)
  end.

(** A number literal: an optional minus sign; then a zero, or a digit
    from 1 to 9 and any digits; then optionally a point and digits; then
    optionally [e] or [E], a sign and digits. *)
Definition scan_number (s : string) : option (string * string) :=
  let '(sign, s1) :=
    match s with
    | String "-" r => ("-", r)
    | _ => (EmptyString, s)
    end in
  let '(int, s2) := span_digits s1 in
  let int_ok :=
    match int with
    | EmptyString => false
    | String "0" (String _ _) => false
    | _ => true
    end in
  let '(frac, s3) :=
    match s2 with
    | String "." r =>
        let '(ds, r') := span_digits r in
        (Some ds, r')
    | _ => (None, s2)
    end in
  let '(exp, s4) :=
    match s3 with
    | String e r =>
        if Ascii.eqb e "e" || Ascii.eqb e "E" then
          let '(sg, r1) :=
            match r with
            | String "+" r' => ("+", r')
            | String "-" r' => ("-", r')
            | _ => (EmptyString, r)
            end in
          let '(ds, r2) := span_digits r1 in
          (Some (String e (sg ++ ds), ds), r2)
        else (None, s3)
    | EmptyString => (None, s3)
    end in
  let frac_ok := match frac with Some EmptyString => false | _ => true end in
  let exp_ok := match exp with Some (_, EmptyString) => false | _ => true end in
  if int_ok && frac_ok && exp_ok then
    Some (sign ++ int
          ++ match frac with Some ds => "." ++ ds | None => EmptyString end
          ++ match exp with Some (lit, _) => lit | None => EmptyString end,
          s4)
  else None.

(** One JSON value at the head of [s], and the rest of [s]. *)
Fixpoint scan_value (fuel : nat) (s : string) : option (value * string) :=
  match fuel with
  | O => None
  | S fuel' =>
      match skip_space s with
      | String "n" (String "u" (String "l" (String "l" r))) => Some (Null, r)
      | String "t" (String "r" (String "u" (String "e" r))) =>
          Some (Bool true, r)
      | String "f" (String "a" (String "l" (String "s" (String "e" r)))) =>
          Some (Bool false, r)
      | String "[" r =>
          match skip_space r with
          | String "]" r' => Some (Array [], r')
          | _ =>
              match scan_elements fuel' r with
              | Some (vs, r') => Some (Array vs, r')
              | None => None
              end
          end
      | String "{" r =>
          match skip_space r with
          | String "}" r' => Some (Object [], r')
          | _ =>
              match scan_members fuel' r with
              | Some (ms, r') => Some (Object ms, r')
              | None => None
              end
          end
      | String c r =>
          if Ascii.eqb c quote then
            match scan_chars r with
            | Some (str, r') => Some (Str str, r')
            | None => None
            end
          else
            match scan_number (String c r) with
            | Some (lit, r') => Some (Number lit, r')
            | None => None
            end
      | EmptyString => None
      end
  end

with scan_elements (fuel : nat) (s : string) : option (list value * string) :=
  match fuel with
  | O => None
  | S fuel' =>
      match scan_value fuel' s with
      | Some (v, r) =>
          match skip_space r with
          | String "]" r' => Some ([v], r')
          | String "," r' =>
              match scan_elements fuel' r' with
              | Some (vs, r'') => Some (v :: vs, r'')
              | None => None
              end
          | _ => None
          end
      | None => None
      end
  end

with scan_members (fuel : nat) (s : string)
  : option (list (string * value) * string) :=
  match fuel with
  | O => None
  | S fuel' =>
      match skip_space s with
      | String q r =>
          if Ascii.eqb q quote then
            match scan_chars r with
            | Some (key, r1) =>
                match skip_space r1 with
                | String ":" r2 =>
                    match scan_value fuel' r2 with
                    | Some (v, r3) =>
                        match skip_space r3 with
                        | String "}" r4 => Some ([(key, v)], r4)
                        | String "," r4 =>
                            match scan_members fuel' r4 with
                            | Some (ms, r5) => Some ((key, v) :: ms, r5)
                            | None => None
                            end
                        | _ => None
                        end
                    | None => None
                    end
                | _ => None
                end
            | None => None
            end
          else None
      | EmptyString => None
      end
  end.

(** A whole text: one value, then only white space. *)
Definition parse (s : string) : option value :=
  match scan_value (2 * String.length s + 2) s with
  | Some (v, r) =>
      match skip_space r with
      | EmptyString => Some v
      | _ => None
      end
  | None => None
  end.

Definition to_lower (c : ascii) : ascii :=
  let b := N_of_ascii c in
  if (65 <=? b)%N && (b <=? 90)%N then ascii_of_N (b + 32) else c.

Fixpoint fold_case (s : string) : string :=
  match s with
  | String c rest => String (to_lower c) (fold_case rest)
  | EmptyString => EmptyString
  end.

(** The member of an object that fills the field tagged [name]. *)
Definition member (name : string) (ms : list (string * value))
  : option (option value) :=
  match filter (fun kv => String.eqb (fold_case (fst kv)) name) ms with
  | [] => Some None
  | [(_, v)] => Some (Some v)
  | _ => None
  end.

Definition decode_string (v : option value) : Result JSONError string :=
  match v with
  | None | Some Null => Ok EmptyString
  | Some (Str s) => Ok s
  | Some _ => Err UnmarshalTypeError
  end.

Fixpoint decode_list {A : Type} (f : value -> Result JSONError A)
  (vs : list value) : Result JSONError (list A) :=
  match vs with
  | [] => Ok []
  | v :: vs' =>
      match f v, decode_list f vs' with
      | Ok a, Ok l => Ok (a :: l)
      | Err e, _ => Err e
      | _, Err e => Err e
      end
  end.

Definition decode_slice {A : Type} (f : value -> Result JSONError A)
  (v : option value) : Result JSONError (list A) :=
  match v with
  | None | Some Null => Ok []
  | Some (Array vs) => decode_list f vs
  | Some _ => Err UnmarshalTypeError
  end.

Definition decode_reportLV (v : value) : Result JSONError reportLV :=
  match v with
  | Null => Ok {| LogicalVolumeName := EmptyString;
                  LogicalVolumeSize := EmptyString;
                  LogicalVolumeTags := EmptyString |}
  | Object ms =>
      match member "lv_name" ms, member "lv_size" ms, member "lv_tags" ms with
      | Some n, Some s, Some t =>
          match decode_string n, decode_string s, decode_string t with
          | Ok n', Ok s', Ok t' =>
              Ok {| LogicalVolumeName := n';
                    LogicalVolumeSize := s';
                    LogicalVolumeTags := t' |}
          | _, _, _ => Err UnmarshalTypeError
          end
      | _, _, _ => Err SyntaxError
      end
  | _ => Err UnmarshalTypeError
  end.

Definition decode_report (v : value) : Result JSONError report :=
  match v with
  | Null => Ok {| LogicalVolumes := [] |}
  | Object ms =>
      match member "lv" ms with
      | Some lv =>
          match decode_slice decode_reportLV lv with
          | Ok lvs => Ok {| LogicalVolumes := lvs |}
          | Err e => Err e
          end
      | None => Err SyntaxError
      end
  | _ => Err UnmarshalTypeError
  end.

Definition decode_reportWrapper (v : value) : Result JSONError reportWrapper :=
  match v with
  | Null => Ok {| Reports := [] |}
  | Object ms =>
      match member "report" ms with
      | Some rs =>
          match decode_slice decode_report rs with
          | Ok reports => Ok {| Reports := reports |}
          | Err e => Err e
          end
      | None => Err SyntaxError
      end
  | _ => Err UnmarshalTypeError
  end.

Definition Unmarshal : Unmarshaler :=
  fun data =>
    match parse data with
    | Some v => decode_reportWrapper v
    | None => Err SyntaxError
    end.

(** The text [lvs --reportformat=json] prints for a list of volumes. *)
Fixpoint escape (s : string) : string :=
  match s with
  | String c rest =>
      if Ascii.eqb c quote || Ascii.eqb c backslash
      then String backslash (String c (escape rest))
      else String c (escape rest)
  | EmptyString => EmptyString
  end.

Definition quoted (s : string) : string :=
  String quote (escape s ++ String quote EmptyString).

Definition render_lv (lv : reportLV) : string :=
  "{" ++ quoted "lv_tags" ++ ":" ++ quoted (LogicalVolumeTags lv) ++ ", "
  ++ quoted "lv_name" ++ ":" ++ quoted (LogicalVolumeName lv) ++ ", "
  ++ quoted "lv_size" ++ ":" ++ quoted (LogicalVolumeSize lv) ++ "}".

Fixpoint render_lvs (lvs : list reportLV) : string :=
  match lvs with
  | [] => EmptyString
  | [lv] => render_lv lv
  | lv :: rest => render_lv lv ++ ", " ++ render_lvs rest
  end.

Definition render_report (lvs : list reportLV) : string :=
  "{ " ++ quoted "report" ++ ": [ { " ++ quoted "lv" ++ ": ["
  ++ render_lvs lvs ++ "] } ] }".

End json.

(** ** Hosts to run the manager on *)

Definition succeeded (out : string) : Completed :=
  {| stdout := out; stderr := EmptyString; runErr := None |}.

Definition exited (code : Z) (err : string) : Completed :=
  {| stdout := EmptyString; stderr := err; runErr := Some (ExitError code) |}.

(** A host that answers the commands from a script, one entry per
    command, whatever the command is; directories are always created. *)
Module scripted.

Definition World : Type := list Completed.

Definition run (c : Cmd) (w : World) : Completed * World :=
  match w with
  | o :: rest => (o, rest)
  | [] => ({| stdout := EmptyString; stderr := EmptyString;
              runErr := Some OtherRunError |}, [])
  end.

Definition host : Host World :=
  {| host_run := run; host_mkdir := fun _ _ w => (None, w) |}.

End scripted.

(** A host with one volume group, its logical volumes and a mount table:
    the six commands act on them the way LVM and [mount] do, as far as
    the manager can tell.  Sizes are reported as they were requested. *)
Module fake.

Record LV : Type := {
  name : string;
  size : string;
  tags : list string;
  formatted : bool
}.

Record World : Type := {
  group : string;
  volumes : list LV;
  mounted : list string;
  directories : list string;
  mkfs_works : bool
}.

Definition to_reportLV (lv : LV) : reportLV :=
  {| LogicalVolumeName := name lv;
     LogicalVolumeSize := size lv;
     LogicalVolumeTags := String.concat "," (tags lv) |}.

Definition is_named (w : World) (qualified : string) (lv : LV) : bool :=
  String.eqb (group w ++ "/" ++ name lv) qualified.

(** The argument that follows the option [key]. *)
Fixpoint option_value (key : string) (args : list string) : option string :=
  match args with
  | k :: rest =>
      if String.eqb k key then hd_error rest else option_value key rest
  | [] => None
  end.

Fixpoint option_values (key : string) (args : list string) : list string :=
  match args with
  | k :: ((v :: _) as rest) =>
      if String.eqb k key then v :: option_values key rest
      else option_values key rest
  | _ => []
  end.

Definition lvs (args : list string) (w : World) : Completed * World :=
  match nth_error args 3 with
  | None => (succeeded (json.render_report (map to_reportLV (volumes w))), w)
  | Some qualified =>
      match filter (is_named w qualified) (volumes w) with
      | [] =>
          ({| stdout := json.render_report [];
              stderr := "  Failed to find logical volume "
                        ++ json.quoted qualified;
              runErr := Some (ExitError 5) |}, w)
      | found => (succeeded (json.render_report (map to_reportLV found)), w)
      end
  end.

Definition lvcreate (args : list string) (w : World) : Completed * World :=
  match option_value "--name" args, option_value "--virtualsize" args with
  | Some n, Some sz =>
      if existsb (fun lv => String.eqb (name lv) n) (volumes w)
      then (exited 5 ("  Logical Volume " ++ json.quoted n
                      ++ " already exists in volume group "
                      ++ json.quoted (group w)), w)
      else
        let lv := {| name := n; size := sz;
                     tags := option_values "--addtag" args;
                     formatted := false |} in
        (succeeded ("  Logical volume " ++ json.quoted n ++ " created."),
         {| group := group w;
            volumes := (volumes w ++ [lv])%list;
            mounted := mounted w;
            directories := directories w;
            mkfs_works := mkfs_works w |})
  | _, _ => (exited 3 "  No command with matching syntax recognised.", w)
  end.

Definition mkfs (args : list string) (w : World) : Completed * World :=
  match option_value "-L" args with
  | Some label =>
      if mkfs_works w
         && existsb (fun lv => String.eqb (name lv) label) (volumes w)
      then
        (succeeded "Writing superblocks and filesystem accounting: done",
         {| group := group w;
            volumes :=
              map (fun lv =>
                     if String.eqb (name lv) label
                     then {| name := name lv; size := size lv;
                             tags := tags lv; formatted := true |}
                     else lv)
                  (volumes w);
            mounted := mounted w;
            directories := directories w;
            mkfs_works := mkfs_works w |})
      else (exited 1 "mkfs.ext4: Input/output error while writing", w)
  | None => (exited 1 "Usage: mkfs.ext4 [-L volume-label] device", w)
  end.

Definition device_of (w : World) (lv : LV) : string :=
  "/dev/" ++ group w ++ "/" ++ name lv.

Definition mount (args : list string) (w : World) : Completed * World :=
  match nth_error args 3, nth_error args 4 with
  | Some device, Some target =>
      if existsb (String.eqb target) (mounted w)
      then (exited 32 ("mount: " ++ target ++ ": " ++ device
                       ++ " already mounted on " ++ target ++ "."), w)
      else
        match find (fun lv => String.eqb (device_of w lv) device)
                   (volumes w) with
        | None =>
            (exited 32 ("mount: " ++ target ++ ": special device " ++ device
                        ++ " does not exist."), w)
        | Some lv =>
            if formatted lv
            then
              (succeeded EmptyString,
               {| group := group w;
                  volumes := volumes w;
                  mounted := target :: mounted w;
                  directories := directories w;
                  mkfs_works := mkfs_works w |})
            else
              (exited 32 ("mount: " ++ target
                          ++ ": wrong fs type, bad option, bad superblock on "
                          ++ device), w)
        end
  | _, _ => (exited 1 "mount: bad usage", w)
  end.

Definition umount (args : list string) (w : World) : Completed * World :=
  match args with
  | [target] =>
      if existsb (String.eqb target) (mounted w)
      then
        (succeeded EmptyString,
         {| group := group w;
            volumes := volumes w;
            mounted := filter (fun m => negb (String.eqb target m)) (mounted w);
            directories := directories w;
            mkfs_works := mkfs_works w |})
      else (exited 32 ("umount: " ++ target ++ ": not mounted."), w)
  | _ => (exited 1 "umount: bad usage", w)
  end.

Definition lvremove (args : list string) (w : World) : Completed * World :=
  match args with
  | [_; qualified] =>
      if existsb (is_named w qualified) (volumes w)
      then
        (succeeded ("  Logical volume " ++ json.quoted qualified
                    ++ " successfully removed"),
         {| group := group w;
            volumes := filter (fun lv => negb (is_named w qualified lv))
                              (volumes w);
            mounted := mounted w;
            directories := directories w;
            mkfs_works := mkfs_works w |})
      else (exited 5 ("  Failed to find logical volume "
                      ++ json.quoted qualified), w)
  | _ => (exited 3 "  No command with matching syntax recognised.", w)
  end.

Definition run (c : Cmd) (w : World) : Completed * World :=
  let args := tl (Args c) in
  if String.eqb (Path c) "/sbin/lvs" then lvs args w
  else if String.eqb (Path c) "/sbin/lvcreate" then lvcreate args w
  else if String.eqb (Path c) "/sbin/mkfs.ext4" then mkfs args w
  else if String.eqb (Path c) "/bin/mount" then mount args w
  else if String.eqb (Path c) "/bin/umount" then umount args w
  else if String.eqb (Path c) "/sbin/lvremove" then lvremove args w
  else ({| stdout := EmptyString; stderr := EmptyString;
           runErr := Some OtherRunError |}, w).

Definition mkdir (path : string) (perm : Z) (w : World)
  : option PathError * World :=
  (None,
   {| group := group w;
      volumes := volumes w;
      mounted := mounted w;
      directories := path :: directories w;
      mkfs_works := mkfs_works w |}).

Definition host : Host World := {| host_run := run; host_mkdir := mkdir |}.

(** An empty pool. *)
Definition empty (group : string) (mkfs_works : bool) : World :=
  {| group := group; volumes := []; mounted := []; directories := [];
     mkfs_works := mkfs_works |}.

End fake.

(** * Notions the properties are stated with *)

(** ** Decimal integers *)

Definition is_decimal_digit (c : ascii) : bool :=
  let b := Z.of_N (N_of_ascii c) in (48 <=? b) && (b <=? 57).

Fixpoint all_digits (s : string) : bool :=
  match s with
  | EmptyString => true
  | String c rest => is_decimal_digit c && all_digits rest
  end.

(** One or more decimal digits. *)
Definition digits (s : string) : Prop :=
  s <> EmptyString /\ all_digits s = true.

(** The number a string of digits denotes: every digit counts for its
    value times the power of ten of its position. *)
Fixpoint decimal_value (s : string) : Z :=
  match s with
  | EmptyString => 0
  | String c rest =>
      (Z.of_N (N_of_ascii c) - 48) * 10 ^ Z.of_nat (String.length rest)
      + decimal_value rest
  end.

(** [decimal_integer p v]: [p] is a decimal integer, with or without a
    sign, and [v] is the integer it denotes. *)
Inductive decimal_integer : string -> Z -> Prop :=
| unsigned_integer (ds : string) :
    digits ds -> decimal_integer ds (decimal_value ds)
| plus_integer (ds : string) :
    digits ds -> decimal_integer (String "+" ds) (decimal_value ds)
| minus_integer (ds : string) :
    digits ds -> decimal_integer (String "-" ds) (- decimal_value ds).

Definition fits_int64 (v : Z) : Prop := - 2 ^ 63 <= v < 2 ^ 63.

Definition byte_suffix (suffix : string) : Prop :=
  suffix = "B" \/ suffix = "b".

(** ** The invocations and the classes of errors *)

Definition lvs_command (volumeName : string) : Cmd :=
  Command "/sbin/lvs"
    (["--reportformat=json"; "--options=lv_tags,lv_name,lv_size"; "--units=b"]
     ++ if is_empty volumeName then [] else [volumeName])%list.

Definition lvcreate_command (l : LVM) (lvName size : string)
  (tags : list string) : Cmd :=
  Command "/sbin/lvcreate"
    (["--virtualsize"; size; "--thinpool"; thinpool l; vg l; "--thin";
      "--type"; "thin"; "--name"; lvName]
     ++ flat_map (fun tag => ["--addtag"; tag]) tags)%list.

Definition mkfs_command (vgName lvName : string) : Cmd :=
  Command "/sbin/mkfs.ext4" ["-L"; lvName; "/dev/" ++ vgName ++ "/" ++ lvName].

Definition mount_command (vgName lvName mountPath : string) : Cmd :=
  Command "/bin/mount"
    ["--make-shared"; "-t"; "ext4"; "/dev/" ++ vgName ++ "/" ++ lvName;
     mountPath].

Definition umount_command (mountPath : string) : Cmd :=
  Command "/bin/umount" [mountPath].

Definition lvremove_command (l : LVM) (volume : LVMVolume) : Cmd :=
  Command "/sbin/lvremove"
    ["--yes"; vg l ++ "/" ++ LogicalVolumeName (info volume)].


(** MalformedOutput: the output of the query is not a JSON text of the
    expected shape. *)
Definition is_malformed_output (e : error) : bool :=
  match e with
  | ErrParsingOutput _ _ _ _ | ErrReportCount _ _ _ _ => true
  | _ => false
  end.

(** [mentions text phrase]: the phrase occurs in the text. *)
Definition mentions (text phrase : string) : Prop :=
  strings.Contains text phrase = true.

(** The pattern under which a failed query counts as not-found. *)
Definition not_found_pattern (volumeName : string) (o : Completed) : Prop :=
  runErr o = Some (ExitError 5)
  /\ mentions (stderr o) "Failed to find logical volume"
  /\ volumeName <> EmptyString.

(** The pattern under which a failed mount counts as done. *)
Definition already_mounted_pattern (o : Completed) : Prop :=
  runErr o = Some (ExitError 32)
  /\ mentions (stderr o) "already mounted on".

(** The report with no logical volume. *)
Definition no_volumes : report := {| LogicalVolumes := [] |}.

(** A volume handle that reports the size [size]. *)
Definition sized (size : string) : LVMVolume :=
  {| volumePath := "/volumes/pool/vol1";
     info := {| LogicalVolumeName := "vol1";
                LogicalVolumeSize := size;
                LogicalVolumeTags := "owner=team-a" |} |}.

(** ** Hosts and outputs of the instances *)

Definition pool : LVM := NewLVM "pool" "thinpool".

Definition vol1 : LVMVolume := sized "1073741824B".

(** What [lvs] leaves on a volume it cannot find. *)
Definition lvs_failed_to_find : Completed :=
  {| stdout := json.render_report [];
     stderr := "  Failed to find logical volume " ++ json.quoted "pool/vol1";
     runErr := Some (ExitError 5) |}.


(** The not-found failure with nothing on standard output. *)
Definition lvs_failed_to_find_silent : Completed :=
  {| stdout := EmptyString;
     stderr := "  Failed to find logical volume " ++ json.quoted "pool/vol1";
     runErr := Some (ExitError 5) |}.


(** A successful query whose text has two report sections. *)
Definition lvs_two_sections : Completed :=
  succeeded ("{ " ++ json.quoted "report" ++ ": [ { " ++ json.quoted "lv"
             ++ ": [] }, { " ++ json.quoted "lv" ++ ": [] } ] }").

(** A successful query whose text has no report section. *)
Definition lvs_no_section : Completed :=
  succeeded ("{ " ++ json.quoted "report" ++ ": [] }").

(** What an older [mount] leaves on a device that is in use. *)
Definition mount_already_mounted_or_busy : Completed :=
  exited 32
    "mount: /dev/pool/vol1 is already mounted or /volumes/pool/vol1 busy".

Definition stored_vol1 (formatted : bool) : fake.LV :=
  {| fake.name := "vol1";
     fake.size := "1073741824B";
     fake.tags := ["owner=team-a"];
     fake.formatted := formatted |}.

(** The pool with [vol1] mounted at its path. *)
Definition vol1_mounted : fake.World :=
  {| fake.group := "pool";
     fake.volumes := [stored_vol1 true];
     fake.mounted := ["/volumes/pool/vol1"];
     fake.directories := ["/volumes/pool/vol1"];
     fake.mkfs_works := true |}.

(** The pool with [vol1] there and its path not mounted. *)
Definition vol1_unmounted : fake.World :=
  {| fake.group := "pool";
     fake.volumes := [stored_vol1 true];
     fake.mounted := [];
     fake.directories := ["/volumes/pool/vol1"];
     fake.mkfs_works := true |}.

(** An empty pool on a host where [mkfs.ext4] fails. *)
Definition pool_without_mkfs : fake.World := fake.empty "pool" false.

(** That pool with [vol1] allocated and not formatted. *)
Definition vol1_unformatted : fake.World :=
  {| fake.group := "pool";
     fake.volumes := [stored_vol1 false];
     fake.mounted := [];
     fake.directories := [];
     fake.mkfs_works := false |}.

(** A query that lists the same name twice. *)
Definition lvs_two_records : Completed :=
  succeeded (json.render_report [info vol1; info vol1]).

(** ** Tags *)

(** A string without a comma. *)
Fixpoint comma_free (s : string) : bool :=
  match s with
  | EmptyString => true
  | String c rest => negb (Ascii.eqb c ",") && comma_free rest
  end.

(** A tag that [key] does not select: it has no comma and does not begin
    with [key] and an equals sign. *)
Definition other_tag (key tag : string) : Prop :=
  comma_free tag = true /\ strings.HasPrefix tag (key ++ "=") = false.

(** The decimal notation of an integer. *)
Definition decimal (n : Z) : string :=
  DecimalString.NilZero.string_of_int (Z.to_int n).

(** ** What a run asks of the host *)

(** [runs_only paths calls]: every command among the calls is one of
    [paths]. *)
Definition runs_only (paths : list string) (calls : list Call) : Prop :=
  Forall (fun call =>
            match call with
            | Ran c => In (Path c) paths
            | MadeDir _ _ => True
            end)
         calls.

(** A record with the tag string [tags]. *)
Definition tagged (tags : string) : reportLV :=
  {| LogicalVolumeName := "vol1";
     LogicalVolumeSize := "1073741824B";
     LogicalVolumeTags := tags |}.

(** The host [fake] with a remove command that fails a given number of
    times before it works, as [lvremove] does while the volume is still
    held open. *)
Module flaky.

Definition World : Type := (fake.World * nat)%type.

Definition run (c : Cmd) (w : World) : Completed * World :=
  let '(inner, failures) := w in
  if String.eqb (Path c) "/sbin/lvremove" then
    match failures with
    | S n => (exited 5 "  Logical volume pool/vol1 in use.", (inner, n))
    | O => let '(o, inner') := fake.run c inner in (o, (inner', O))
    end
  else
    let '(o, inner') := fake.run c inner in (o, (inner', failures)).

Definition mkdir (path : string) (perm : Z) (w : World)
  : option PathError * World :=
  let '(inner, failures) := w in
  let '(e, inner') := fake.mkdir path perm inner in
  (e, (inner', failures)).

Definition host : Host World := {| host_run := run; host_mkdir := mkdir |}.

End flaky.

(** * Properties *)

(** ** Strings *)

Lemma length_app (p q : string) :
  String.length (p ++ q) = (String.length p + String.length q)%nat.
Proof. induction p as [|c p IH]; simpl; [reflexivity | now rewrite IH]. Qed.

Lemma substring_whole (s : string) : substring 0 (String.length s) s = s.
Proof. induction s as [|c s IH]; simpl; [reflexivity | now rewrite IH]. Qed.

Lemma substring_app_left (p q : string) :
  substring 0 (String.length p) (p ++ q) = p.
Proof.
  induction p as [|c p IH]; simpl.
  - now destruct q.
  - now rewrite IH.
Qed.

Lemma substring_app_right (p q : string) :
  substring (String.length p) (String.length q) (p ++ q) = q.
Proof.
  induction p as [|c p IH]; simpl.
  - apply substring_whole.
  - exact IH.
Qed.

Lemma substring_split (s : string) :
  forall n, (n <= String.length s)%nat ->
    s = substring 0 n s ++ substring n (String.length s - n) s.
Proof.
  induction s as [|c s IH]; intros n Hn; simpl in Hn.
  - now replace n with 0%nat by lia.
  - destruct n as [|n].
    + simpl. now rewrite substring_whole.
    + simpl. f_equal. apply IH. lia.
Qed.

Lemma HasSuffix_app (p suffix : string) :
  strings.HasSuffix (p ++ suffix) suffix = true.
Proof.
  unfold strings.HasSuffix. rewrite length_app.
  replace (String.length p + String.length suffix - String.length suffix)%nat
    with (String.length p) by lia.
  rewrite substring_app_right, String.eqb_refl, andb_true_r.
  apply Nat.leb_le. lia.
Qed.

Lemma TrimSuffix_app (p suffix : string) :
  strings.TrimSuffix (p ++ suffix) suffix = p.
Proof.
  unfold strings.TrimSuffix. rewrite HasSuffix_app, length_app.
  replace (String.length p + String.length suffix - String.length suffix)%nat
    with (String.length p) by lia.
  apply substring_app_left.
Qed.

Lemma HasSuffix_inv (s suffix : string) :
  strings.HasSuffix s suffix = true ->
  s = strings.TrimSuffix s suffix ++ suffix.
Proof.
  intros H. unfold strings.TrimSuffix. rewrite H.
  unfold strings.HasSuffix in H. apply andb_true_iff in H as [Hlen Heq].
  apply Nat.leb_le in Hlen. apply String.eqb_eq in Heq.
  assert (Hk : (String.length s - String.length suffix <= String.length s)%nat)
    by lia.
  pose proof (substring_split s Hk) as Hs.
  replace (String.length s - (String.length s - String.length suffix))%nat
    with (String.length suffix) in Hs by lia.
  now rewrite Heq in Hs.
Qed.

Lemma HasSuffix_false (s suffix : string) :
  strings.HasSuffix s suffix = false -> forall p, s <> p ++ suffix.
Proof.
  intros H p ->. rewrite HasSuffix_app in H. discriminate.
Qed.

Lemma app_inv_tail (p q suffix : string) : p ++ suffix = q ++ suffix -> p = q.
Proof.
  intros H. rewrite <- (TrimSuffix_app p suffix), H. apply TrimSuffix_app.
Qed.

(** ** [strconv.ParseInt] reads decimal integers *)

(** Case analysis on every comparison of the goal. *)
Ltac zbool :=
  repeat match goal with
    | |- context [?a <=? ?b] => destruct (Z.leb_spec a b)
    | |- context [?a <? ?b] => destruct (Z.ltb_spec a b)
    end;
  cbn [andb orb negb].

Lemma digit_val_digit (c : ascii) :
  is_decimal_digit c = true ->
  strconv.digit_val c = Some (strconv.byte_of c - 48)
  /\ 0 <= strconv.byte_of c - 48 <= 9.
Proof.
  unfold is_decimal_digit, strconv.digit_val, strconv.byte_of.
  intros H. rewrite H. apply andb_true_iff in H as [H1 H2].
  apply Z.leb_le in H1, H2. split; [reflexivity | lia].
Qed.

Lemma digit_val_other (c : ascii) :
  is_decimal_digit c = false ->
  match strconv.digit_val c with
  | None => True
  | Some d => 10 <= d
  end.
Proof.
  unfold is_decimal_digit, strconv.digit_val, strconv.byte_of.
  intros H. rewrite H.
  destruct ((97 <=? _) && _) eqn:E; [|exact I].
  apply andb_true_iff in E as [E1 _]. apply Z.leb_le in E1. lia.
Qed.

Lemma decimal_value_bounds (s : string) :
  all_digits s = true ->
  0 <= decimal_value s < 10 ^ Z.of_nat (String.length s).
Proof.
  induction s as [|c s IH]; simpl all_digits; intros H.
  - simpl. lia.
  - apply andb_true_iff in H as [Hc Hs]. specialize (IH Hs).
    destruct (digit_val_digit c Hc) as [_ Hd]. unfold strconv.byte_of in Hd.
    cbn [decimal_value String.length].
    rewrite Nat2Z.inj_succ, Z.pow_succ_r by lia.
    nia.
Qed.

Lemma ParseUint_loop_digits (s : string) :
  forall n, 0 <= n < 2 ^ 64 -> all_digits s = true ->
    strconv.ParseUint_loop s n
    = if n * 10 ^ Z.of_nat (String.length s) + decimal_value s <? 2 ^ 64
      then inr (n * 10 ^ Z.of_nat (String.length s) + decimal_value s)
      else inl strconv.ErrRange.
Proof.
  induction s as [|c s IH]; intros n Hn H.
  - cbn [strconv.ParseUint_loop decimal_value String.length Z.of_nat].
    rewrite Z.pow_0_r, Z.mul_1_r, Z.add_0_r.
    destruct (Z.ltb_spec n (2 ^ 64)); [reflexivity | lia].
  - simpl in H. apply andb_true_iff in H as [Hc Hs].
    destruct (digit_val_digit c Hc) as [Hv Hd].
    pose proof (decimal_value_bounds s Hs) as Hb.
    cbn [strconv.ParseUint_loop decimal_value String.length].
    rewrite Hv. unfold strconv.byte_of in *.
    set (d := Z.of_N (N_of_ascii c) - 48) in *.
    rewrite Nat2Z.inj_succ, Z.pow_succ_r by lia.
    set (P := 10 ^ Z.of_nat (String.length s)) in *.
    set (v := decimal_value s) in *.
    assert (HP : 1 <= P) by (subst P; lia).
    destruct (Z.leb_spec 10 d); [lia|].
    change (strconv.maxUint64 / 10 + 1) with 1844674407370955162.
    change strconv.maxUint64 with 18446744073709551615.
    change (2 ^ 64) with 18446744073709551616 in *.
    destruct (Z.leb_spec 1844674407370955162 n) as [Hcut|Hcut].
    + destruct (Z.ltb_spec (n * (10 * P) + (d * P + v)) 18446744073709551616);
        [nia | reflexivity].
    + rewrite (Z.mod_small (n * 10)) by lia.
      destruct (Z.ltb_spec (n * 10 + d) 18446744073709551616) as [Hs1|Hs1].
      * rewrite (Z.mod_small (n * 10 + d)) by lia.
        destruct (Z.ltb_spec (n * 10 + d) (n * 10)); [lia|].
        destruct (Z.ltb_spec 18446744073709551615 (n * 10 + d)); [lia|].
        cbn [orb]. rewrite IH by (try assumption; lia).
        fold P v.
        replace (n * (10 * P) + (d * P + v)) with ((n * 10 + d) * P + v)
          by ring.
        reflexivity.
      * assert (Hm : (n * 10 + d) mod 18446744073709551616
                     = n * 10 + d - 18446744073709551616).
        { symmetry. apply Z.mod_unique with (q := 1); lia. }
        rewrite Hm.
        destruct (Z.ltb_spec (n * 10 + d - 18446744073709551616) (n * 10));
          [|lia].
        cbn [orb].
        destruct (Z.ltb_spec (n * (10 * P) + (d * P + v)) 18446744073709551616);
          [nia | reflexivity].
Qed.

Lemma ParseUint_loop_other (s : string) :
  forall n, all_digits s = false ->
    exists e, strconv.ParseUint_loop s n = inl e.
Proof.
  induction s as [|c s IH]; intros n H; [discriminate|].
  cbn [strconv.ParseUint_loop].
  destruct (is_decimal_digit c) eqn:Hc.
  - simpl in H. rewrite Hc in H. simpl in H.
    destruct (digit_val_digit c Hc) as [Hv _]. rewrite Hv.
    destruct (10 <=? _); [now eexists|].
    destruct (_ <=? n); [now eexists|].
    destruct (_ || _); [now eexists|].
    now apply IH.
  - pose proof (digit_val_other c Hc) as Ho.
    destruct (strconv.digit_val c) as [d|]; [|now eexists].
    destruct (Z.leb_spec 10 d); [now eexists | lia].
Qed.

Lemma ParseUint_digits (ds : string) :
  digits ds ->
  strconv.ParseUint ds
  = if decimal_value ds <? 2 ^ 64 then inr (decimal_value ds)
    else inl strconv.ErrRange.
Proof.
  intros [Hne Hd]. unfold strconv.ParseUint.
  destruct ds as [|c ds]; [congruence|].
  rewrite ParseUint_loop_digits by (try assumption; lia).
  now rewrite Z.mul_0_l, Z.add_0_l.
Qed.

Lemma ParseUint_other (s : string) :
  ~ digits s -> exists e, strconv.ParseUint s = inl e.
Proof.
  intros H. unfold strconv.ParseUint. destruct s as [|c s]; [now eexists|].
  apply ParseUint_loop_other.
  destruct (all_digits (String c s)) eqn:E; [|reflexivity].
  exfalso. apply H. split; [discriminate | assumption].
Qed.

Lemma digits_head (c : ascii) (s : string) :
  digits (String c s) -> Ascii.eqb c "+" = false /\ Ascii.eqb c "-" = false.
Proof.
  intros [_ H]. simpl in H. apply andb_true_iff in H as [H _].
  unfold is_decimal_digit in H. apply andb_true_iff in H as [H1 H2].
  apply Z.leb_le in H1.
  split; apply Ascii.eqb_neq; intros ->; vm_compute in H1; now apply H1.
Qed.

Lemma digits_nonneg (ds : string) : digits ds -> 0 <= decimal_value ds.
Proof. intros [_ H]. apply decimal_value_bounds in H. lia. Qed.

Lemma int64_small (z : Z) : fits_int64 z -> strconv.int64 z = z.
Proof.
  unfold fits_int64, strconv.int64.
  change (2 ^ 63) with 9223372036854775808.
  change (2 ^ 64) with 18446744073709551616.
  intros H. rewrite Z.mod_small by lia. lia.
Qed.

Lemma int64_min : strconv.int64 (2 ^ 63) = - 2 ^ 63.
Proof. reflexivity. Qed.

(** [ParseInt] on a decimal integer: its value if that fits [int64], a
    range error if not. *)
Lemma ParseInt_decimal (p : string) (v : Z) :
  decimal_integer p v ->
  (fits_int64 v -> strconv.ParseInt p = inr v)
  /\ (~ fits_int64 v -> strconv.ParseInt p = inl strconv.ErrRange).
Proof.
  assert (Hun : forall ds neg,
    digits ds ->
    match strconv.ParseUint ds with
    | inl e => inl e
    | inr un =>
        if negb neg && (2 ^ 63 <=? un) then inl strconv.ErrRange
        else if neg && (2 ^ 63 <? un) then inl strconv.ErrRange
        else inr (if neg then strconv.int64 (- strconv.int64 un)
                  else strconv.int64 un)
    end
    = let v := if neg then - decimal_value ds else decimal_value ds in
      if (- 2 ^ 63 <=? v) && (v <? 2 ^ 63) then inr v
      else inl strconv.ErrRange).
  { intros ds neg Hd. rewrite (ParseUint_digits Hd).
    pose proof (digits_nonneg Hd) as H0.
    set (u := decimal_value ds) in *. cbv zeta.
    change (2 ^ 63) with 9223372036854775808.
    change (2 ^ 64) with 18446744073709551616.
    destruct neg; cbn [negb andb]; zbool; try reflexivity; try lia; f_equal.
    - destruct (Z.eq_dec u 9223372036854775808) as [->|Hne]; [reflexivity|].
      rewrite (int64_small (z := u)) by (unfold fits_int64; lia).
      apply int64_small. unfold fits_int64. lia.
    - apply int64_small. unfold fits_int64. lia. }
  assert (Hfit : forall z,
    (fits_int64 z ->
     (if (- 2 ^ 63 <=? z) && (z <? 2 ^ 63) then inr z
      else inl strconv.ErrRange) = (inr z : strconv.NumError + Z))
    /\ (~ fits_int64 z ->
        (if (- 2 ^ 63 <=? z) && (z <? 2 ^ 63) then inr z
         else inl strconv.ErrRange)
        = (inl strconv.ErrRange : strconv.NumError + Z))).
  { intros z. unfold fits_int64.
    destruct (Z.leb_spec (- 2 ^ 63) z), (Z.ltb_spec z (2 ^ 63));
      cbn [andb]; split; intros; try reflexivity; lia. }
  intros [ds Hd|ds Hd|ds Hd].
  - destruct ds as [|c ds]; [now destruct Hd|].
    destruct (digits_head Hd) as [Hp Hm].
    unfold strconv.ParseInt. rewrite Hp, Hm.
    rewrite (Hun _ false Hd). apply Hfit.
  - unfold strconv.ParseInt.
    change (Ascii.eqb "+" "+") with true.
    change (Ascii.eqb "+" "-") with false.
    cbv iota. cbv zeta. rewrite (Hun _ false Hd). apply Hfit.
  - unfold strconv.ParseInt.
    change (Ascii.eqb "-" "+") with false.
    change (Ascii.eqb "-" "-") with true.
    cbv iota. cbv zeta. rewrite (Hun _ true Hd). apply Hfit.
Qed.

(** [ParseInt] on anything else fails. *)
Lemma ParseInt_other (p : string) :
  (forall v, ~ decimal_integer p v) -> exists e, strconv.ParseInt p = inl e.
Proof.
  intros H. unfold strconv.ParseInt. destruct p as [|c0 rest]; [now eexists|].
  assert (Hs1 : ~ digits (if Ascii.eqb c0 "+" then rest
                          else if Ascii.eqb c0 "-" then rest
                          else String c0 rest)).
  { intros Hd.
    destruct (Ascii.eqb_spec c0 "+") as [->|_];
      [exact (H _ (plus_integer Hd))|].
    destruct (Ascii.eqb_spec c0 "-") as [->|_];
      [exact (H _ (minus_integer Hd))|].
    exact (H _ (unsigned_integer Hd)). }
  cbv zeta. destruct (ParseUint_other Hs1) as [e He]. rewrite He. now eexists.
Qed.

(** ** [VolumeSizeBytes] *)

Lemma app_last_inj (p q : string) (a b : ascii) :
  p ++ String a EmptyString = q ++ String b EmptyString -> p = q /\ a = b.
Proof.
  revert q. induction p as [|c p IH]; intros [|c' q] H; simpl in H.
  - now inversion H.
  - inversion H as [[Hc Hq]]. now destruct q.
  - inversion H as [[Hc Hp]]. now destruct p.
  - inversion H as [[Hc Hpq]]. destruct (IH _ Hpq) as [-> ->]. now split.
Qed.

Lemma HasSuffix_other_char (p : string) (a b : ascii) :
  a <> b ->
  strings.HasSuffix (p ++ String a EmptyString) (String b EmptyString) = false.
Proof.
  intros Hab.
  destruct (strings.HasSuffix _ _) eqn:E; [|reflexivity].
  apply HasSuffix_inv, app_last_inj in E. now destruct E.
Qed.

(** With a byte suffix the result is that of [ParseInt] on the rest. *)
Lemma VolumeSizeBytes_suffixed (r : LVMVolume) (p suffix : string) :
  LogicalVolumeSize (info r) = p ++ suffix -> byte_suffix suffix ->
  VolumeSizeBytes r
  = match strconv.ParseInt p with
    | inl err => Err (ParsingSize (LogicalVolumeSize (info r)) err)
    | inr n => Ok (strconv.int64 (n * 1))
    end.
Proof.
  intros Hs [->| ->]; unfold VolumeSizeBytes; rewrite Hs.
  - now rewrite HasSuffix_app, TrimSuffix_app.
  - rewrite HasSuffix_other_char by discriminate.
    now rewrite HasSuffix_app, TrimSuffix_app.
Qed.

Lemma VolumeSizeBytes_unsuffixed (r : LVMVolume) :
  (forall p suffix, byte_suffix suffix ->
                    LogicalVolumeSize (info r) <> p ++ suffix) ->
  VolumeSizeBytes r = Err (UnknownSuffix (LogicalVolumeSize (info r))).
Proof.
  intros H. unfold VolumeSizeBytes.
  destruct (strings.HasSuffix _ "B") eqn:EB.
  { apply HasSuffix_inv in EB. exfalso. eapply H; [|exact EB]. now left. }
  destruct (strings.HasSuffix _ "b") eqn:Eb.
  { apply HasSuffix_inv in Eb. exfalso. eapply H; [|exact Eb]. now right. }
  reflexivity.
Qed.

(** C6.  A size string made of a decimal integer and one byte suffix,
    [B] or [b], parses to that integer; a string that does not end in a
    byte suffix, one whose prefix is not a decimal integer, and one whose
    prefix does not fit a signed 64-bit integer, all fail with an error
    of the size format. *)
Theorem VolumeSizeBytes_decimal_with_byte_suffix (r : LVMVolume) :
  let s := LogicalVolumeSize (info r) in
  (forall p suffix v,
      s = p ++ suffix -> byte_suffix suffix ->
      decimal_integer p v -> fits_int64 v ->
      VolumeSizeBytes r = Ok v)
  /\ ((forall p suffix, byte_suffix suffix -> s <> p ++ suffix) ->
      VolumeSizeBytes r = Err (UnknownSuffix s))
  /\ (forall p suffix,
         s = p ++ suffix -> byte_suffix suffix ->
         (forall v, ~ decimal_integer p v) ->
         exists e, VolumeSizeBytes r = Err (ParsingSize s e))
  /\ (forall p suffix v,
         s = p ++ suffix -> byte_suffix suffix ->
         decimal_integer p v -> ~ fits_int64 v ->
         VolumeSizeBytes r = Err (ParsingSize s strconv.ErrRange)).
Proof.
  cbv zeta. repeat split.
  - intros p suffix v Hs Hsuf Hdec Hfit.
    rewrite (VolumeSizeBytes_suffixed r p Hs Hsuf).
    destruct (ParseInt_decimal Hdec) as [Hok _]. rewrite (Hok Hfit).
    now rewrite Z.mul_1_r, int64_small.
  - apply VolumeSizeBytes_unsuffixed.
  - intros p suffix Hs Hsuf Hno.
    rewrite (VolumeSizeBytes_suffixed r p Hs Hsuf).
    destruct (ParseInt_other Hno) as [e He]. rewrite He. now exists e.
  - intros p suffix v Hs Hsuf Hdec Hfit.
    rewrite (VolumeSizeBytes_suffixed r p Hs Hsuf).
    destruct (ParseInt_decimal Hdec) as [_ Herr]. now rewrite (Herr Hfit).
Qed.

Lemma VolumeSizeBytes_decimal_with_byte_suffix_witness :
  (decimal_integer "1073741824" 1073741824 /\ fits_int64 1073741824
   /\ VolumeSizeBytes (sized "1073741824B") = Ok 1073741824)
  /\ (decimal_integer "-42" (-42)
      /\ VolumeSizeBytes (sized "-42b") = Ok (-42))
  /\ VolumeSizeBytes (sized "10G") = Err (UnknownSuffix "10G")
  /\ ((forall v, ~ decimal_integer "12x4" v)
      /\ exists e,
          VolumeSizeBytes (sized "12x4b") = Err (ParsingSize "12x4b" e))
  /\ (decimal_integer "9223372036854775808" (2 ^ 63) /\ ~ fits_int64 (2 ^ 63)
      /\ VolumeSizeBytes (sized "9223372036854775808B")
         = Err (ParsingSize "9223372036854775808B" strconv.ErrRange)).
Proof.
  assert (D1 : decimal_integer "1073741824" 1073741824).
  { apply (unsigned_integer (ds := "1073741824")). split; [discriminate|].
    vm_compute. reflexivity. }
  assert (F1 : fits_int64 1073741824) by (unfold fits_int64; lia).
  assert (D2 : decimal_integer "-42" (-42)).
  { apply (minus_integer (ds := "42")). split; [discriminate|].
    vm_compute. reflexivity. }
  assert (F2 : fits_int64 (-42)) by (unfold fits_int64; lia).
  assert (N3 : forall p suffix, byte_suffix suffix -> "10G" <> p ++ suffix).
  { intros p suffix [->| ->]; apply HasSuffix_false; reflexivity. }
  assert (N4 : forall v, ~ decimal_integer "12x4" v).
  { intros v H.
    inversion H as [ds [_ Hd]|ds [_ Hd]|ds [_ Hd]]; subst;
      vm_compute in Hd; discriminate. }
  assert (D5 : decimal_integer "9223372036854775808" (2 ^ 63)).
  { apply (unsigned_integer (ds := "9223372036854775808")).
    split; [discriminate|]. vm_compute. reflexivity. }
  assert (F5 : ~ fits_int64 (2 ^ 63)) by (unfold fits_int64; lia).
  refine (conj (conj D1 (conj F1 _))
            (conj (conj D2 _)
               (conj _ (conj (conj N4 _) (conj D5 (conj F5 _)))))).
  - exact (proj1 (VolumeSizeBytes_decimal_with_byte_suffix
                    (sized "1073741824B"))
             "1073741824" "B" 1073741824 eq_refl (or_introl eq_refl) D1 F1).
  - exact (proj1 (VolumeSizeBytes_decimal_with_byte_suffix (sized "-42b"))
             "-42" "b" (-42) eq_refl (or_intror eq_refl) D2 F2).
  - exact (proj1 (proj2 (VolumeSizeBytes_decimal_with_byte_suffix
                           (sized "10G"))) N3).
  - exact (proj1 (proj2 (proj2 (VolumeSizeBytes_decimal_with_byte_suffix
                                  (sized "12x4b"))))
             "12x4" "b" eq_refl (or_intror eq_refl) N4).
  - exact (proj2 (proj2 (proj2 (VolumeSizeBytes_decimal_with_byte_suffix
                                  (sized "9223372036854775808B"))))
             "9223372036854775808" "B" (2 ^ 63) eq_refl (or_introl eq_refl)
             D5 F5).
Defined.

(** ** Running programs *)

Lemma exec_bind {W A B : Type} (h : Host W) (p : Prog A) (f : A -> Prog B) :
  forall w,
    exec h (bind p f) w
    = let '(a, w1, calls1) := exec h p w in
      let '(b, w2, calls2) := exec h (f a) w1 in
      (b, w2, (calls1 ++ calls2)%list).
Proof.
  induction p as [a|c k IH|path perm k IH]; intros w; cbn [bind exec].
  - now destruct (exec h (f a) w) as [[b w2] calls2].
  - destruct (host_run h c w) as [o w1]. rewrite IH.
    destruct (exec h (k o) w1) as [[a w2] calls1].
    now destruct (exec h (f a) w2) as [[b w3] calls2].
  - destruct (host_mkdir h path perm w) as [e w1]. rewrite IH.
    destruct (exec h (k e) w1) as [[a w2] calls1].
    now destruct (exec h (f a) w2) as [[b w3] calls2].
Qed.

Lemma addtag_args (tags : list string) :
  forall args,
    fold_left (fun args tag => (args ++ ["--addtag"; tag])%list) tags args
    = (args ++ flat_map (fun tag => ["--addtag"; tag]) tags)%list.
Proof.
  induction tags as [|t tags IH]; intros args; simpl.
  - now rewrite app_nil_r.
  - rewrite IH, <- app_assoc. reflexivity.
Qed.

Section ManagerProperties.

Variable Unmarshal : Unmarshaler.
Variable W : Type.
Variable h : Host W.

(** *** The query *)

Lemma lvs_command_eq (volumeName : string) :
  Command "/sbin/lvs"
    (if negb (is_empty volumeName)
     then (["--reportformat=json"; "--options=lv_tags,lv_name,lv_size";
            "--units=b"] ++ [volumeName])%list
     else ["--reportformat=json"; "--options=lv_tags,lv_name,lv_size";
           "--units=b"])
  = lvs_command volumeName.
Proof. now destruct volumeName. Qed.

(** The query runs one command, whatever comes of it. *)
Lemma runLVSReport_calls (volumeName : string) (w : W) :
  let run := exec h (runLVSReport Unmarshal volumeName) w in
  world_of run = snd (host_run h (lvs_command volumeName) w)
  /\ calls_of run = [Ran (lvs_command volumeName)].
Proof.
  cbv zeta. unfold runLVSReport. rewrite lvs_command_eq. cbn [bind exec].
  destruct (host_run h (lvs_command volumeName) w) as [o w1].
  destruct (match runErr o with Some _ => _ | None => _ end);
    [now split|].
  destruct (Unmarshal (stdout o)) as [[[|r0 [|r1 rs]]]|e]; now split.
Qed.

(** A failure outside the not-found pattern is returned as it is. *)
Lemma runLVSReport_escalates (volumeName : string) (w : W) (err : RunError) :
  let c := lvs_command volumeName in
  let o := fst (host_run h c w) in
  runErr o = Some err -> ~ not_found_pattern volumeName o ->
  result_of (exec h (runLVSReport Unmarshal volumeName) w)
  = Err (ErrRunningCommand c (stdout o) (stderr o) err).
Proof.
  cbv zeta. unfold runLVSReport, not_found_pattern, mentions.
  rewrite lvs_command_eq. cbn [bind exec].
  destruct (host_run h (lvs_command volumeName) w) as [o w1]. cbn [fst].
  intros -> Hnot.
  destruct err as [code|]; [|now destruct volumeName].
  destruct (Z.eqb_spec code 5) as [->|Hne]; [|now destruct volumeName].
  destruct (strings.Contains (stderr o) _); [|now destruct volumeName].
  destruct volumeName; [reflexivity|].
  exfalso. apply Hnot. repeat split. discriminate.
Qed.

(** Without a failure, or with one inside the not-found pattern, the
    result is read from the captured standard output. *)
Lemma runLVSReport_reads_stdout (volumeName : string) (w : W) :
  let c := lvs_command volumeName in
  let o := fst (host_run h c w) in
  runErr o = None \/ not_found_pattern volumeName o ->
  result_of (exec h (runLVSReport Unmarshal volumeName) w)
  = match Unmarshal (stdout o) with
    | Err e => Err (ErrParsingOutput c (stdout o) (stderr o) e)
    | Ok r =>
        match Reports r with
        | [r0] => Ok r0
        | _ => Err (ErrReportCount c (stdout o) (stderr o)
                      (List.length (Reports r)))
        end
    end.
Proof.
  cbv zeta. unfold runLVSReport, not_found_pattern, mentions.
  rewrite lvs_command_eq. cbn [bind exec].
  destruct (host_run h (lvs_command volumeName) w) as [o w1]. cbn [fst].
  intros [->|(-> & -> & Hname)].
  - destruct (Unmarshal (stdout o)) as [[[|r0 [|r1 rs]]]|e]; reflexivity.
  - destruct volumeName; [congruence|]. cbn [is_empty negb andb Z.eqb Pos.eqb].
    destruct (Unmarshal (stdout o)) as [[[|r0 [|r1 rs]]]|e]; reflexivity.
Qed.

(** C8.  When the output of the query is read at all, a text that does
    not decode, or that decodes to a number of report sections other than
    one, fails as malformed output; a text with exactly one section yields
    that section, and a section with no logical volume is such a result
    and no error. *)
Theorem runLVSReport_exactly_one_report (volumeName : string) (w : W) :
  let o := fst (host_run h (lvs_command volumeName) w) in
  let result := result_of (exec h (runLVSReport Unmarshal volumeName) w) in
  runErr o = None \/ not_found_pattern volumeName o ->
  (forall r, Unmarshal (stdout o) = Ok r ->
             List.length (Reports r) <> 1%nat ->
             exists e, result = Err e /\ is_malformed_output e = true)
  /\ (forall e, Unmarshal (stdout o) = Err e ->
                exists e', result = Err e' /\ is_malformed_output e' = true)
  /\ (forall r rep, Unmarshal (stdout o) = Ok r -> Reports r = [rep] ->
                    result = Ok rep)
  /\ (forall r, Unmarshal (stdout o) = Ok r -> Reports r = [no_volumes] ->
                result = Ok no_volumes).
Proof.
  cbv zeta. intros Hread.
  rewrite (@runLVSReport_reads_stdout volumeName w Hread).
  repeat split.
  - intros r -> Hlen. destruct (Reports r) as [|r0 [|r1 rs]];
      [|now contradiction Hlen|]; eexists; split; reflexivity.
  - intros e ->. eexists; split; reflexivity.
  - now intros r rep -> ->.
  - now intros r -> ->.
Qed.

(** C10.  A failure inside the not-found pattern does not make the query
    return an empty result by itself: the captured standard output is
    decoded all the same, and the query fails when it does not decode
    (an empty output among others) or does not hold exactly one report
    section. *)
Theorem runLVSReport_not_found_still_parses (volumeName : string) (w : W) :
  let c := lvs_command volumeName in
  let o := fst (host_run h c w) in
  let result := result_of (exec h (runLVSReport Unmarshal volumeName) w) in
  not_found_pattern volumeName o ->
  (forall e, Unmarshal (stdout o) = Err e ->
             result = Err (ErrParsingOutput c (stdout o) (stderr o) e))
  /\ (forall e, stdout o = EmptyString -> Unmarshal EmptyString = Err e ->
                result = Err (ErrParsingOutput c EmptyString (stderr o) e))
  /\ (forall r, Unmarshal (stdout o) = Ok r ->
                List.length (Reports r) <> 1%nat ->
                result = Err (ErrReportCount c (stdout o) (stderr o)
                                (List.length (Reports r))))
  /\ (forall rep, result = Ok rep ->
                  exists r, Unmarshal (stdout o) = Ok r /\ Reports r = [rep]).
Proof.
  cbv zeta. intros Hpat.
  rewrite (@runLVSReport_reads_stdout volumeName w (or_intror Hpat)).
  repeat split.
  - now intros e ->.
  - intros e Hout He. rewrite Hout, He. reflexivity.
  - intros r -> Hlen.
    destruct (Reports r) as [|r0 [|r1 rs]];
      [|now contradiction Hlen|]; reflexivity.
  - intros rep.
    destruct (Unmarshal (stdout _)) as [r|e] eqn:E; [|discriminate].
    destruct (Reports r) as [|r0 [|r1 rs]] eqn:ER; try discriminate.
    intros [= <-]. now exists r.
Qed.


(** *** Finding a volume *)

Lemma exec_findLVInfo (vgName lvName : string) (w : W) :
  exec h (findLVInfo Unmarshal vgName lvName) w
  = let '(r, w1, calls) :=
      exec h (runLVSReport Unmarshal (vgName ++ "/" ++ lvName)) w in
    (match r with
     | Err e => Err e
     | Ok rep =>
         match LogicalVolumes rep with
         | [] => Ok None
         | [lv0] => Ok (Some lv0)
         | _ => Err (ErrMultipleLVs (List.length (LogicalVolumes rep)))
         end
     end, w1, calls).
Proof.
  unfold findLVInfo. rewrite exec_bind.
  destruct (exec h (runLVSReport _ _) w) as [[[rep|e] w1] calls];
    [|cbn [exec]; now rewrite app_nil_r].
  destruct (LogicalVolumes rep) as [|lv0 [|lv1 lvs]];
    cbn [List.length Nat.ltb Nat.leb exec]; now rewrite app_nil_r.
Qed.

(** C5.  When the query for an identifier returns no record,
    [findVolumeByVolumeID] returns neither a handle nor an error, and it
    does nothing more on the host; when the query returns more than one
    record it returns an error that tells how many, and no handle. *)
Theorem findVolumeByVolumeID_none_or_many
  (l : LVM) (volumeID : string) (w w1 : W) (rep : report)
  (calls : list Call) :
  exec h (runLVSReport Unmarshal (vg l ++ "/" ++ volumeID)) w
  = (Ok rep, w1, calls) ->
  (LogicalVolumes rep = [] ->
   exec h (findVolumeByVolumeID Unmarshal l volumeID) w
   = (Ok None, w1, calls))
  /\ ((1 < List.length (LogicalVolumes rep))%nat ->
      exec h (findVolumeByVolumeID Unmarshal l volumeID) w
      = (Err (ErrMultipleLVs (List.length (LogicalVolumes rep))), w1, calls)).
Proof.
  intros Hq. unfold findVolumeByVolumeID, findVolumeByLVName.
  rewrite exec_bind, exec_findLVInfo, Hq. split.
  - intros ->. cbn [exec]. now rewrite app_nil_r.
  - intros Hlen. destruct (LogicalVolumes rep) as [|lv0 [|lv1 lvs]];
      [simpl in Hlen; lia | simpl in Hlen; lia |].
    cbn [exec]. now rewrite app_nil_r.
Qed.

(** *** Mounting *)

(** C7, as the code has it.  When the directory is there and the mount
    command fails with exit code 32 and a standard error that contains
    [already mounted on], [ensureMountLV] succeeds; two calls in
    succession that both meet an already mounted path both succeed. *)
Theorem ensureMountLV_already_mounted_twice
  (vgName lvName mountPath : string) (w w1 w2 w3 w4 : W)
  (o1 o2 : Completed) :
  let c := mount_command vgName lvName mountPath in
  host_mkdir h mountPath 511 w = (None, w1) ->
  host_run h c w1 = (o1, w2) ->
  already_mounted_pattern o1 ->
  host_mkdir h mountPath 511 w2 = (None, w3) ->
  host_run h c w3 = (o2, w4) ->
  already_mounted_pattern o2 ->
  exec h (ensureMountLV vgName lvName mountPath) w
  = (None, w2, [MadeDir mountPath 511; Ran c])
  /\ exec h (ensureMountLV vgName lvName mountPath) w2
     = (None, w4, [MadeDir mountPath 511; Ran c]).
Proof.
  cbv zeta. unfold already_mounted_pattern, mentions, mount_command.
  intros Hd1 Hr1 (He1 & Hs1) Hd2 Hr2 (He2 & Hs2).
  unfold ensureMountLV. cbn [bind exec].
  rewrite Hd1, Hd2. cbn [bind exec]. rewrite Hr1, Hr2.
  rewrite He1, He2, Hs1, Hs2. split; reflexivity.
Qed.

(** *** Deleting *)

(** C3.  [deleteLV] runs the unmount command first.  When that returns
    an error, the error is returned and nothing else is run; the remove
    command is run only after an unmount without error, and right after
    it. *)
Theorem deleteLV_unmounts_before_removing
  (l : LVM) (volume : LVMVolume) (w : W) :
  let unmount := umount_command (volumePath volume) in
  let remove := lvremove_command l volume in
  let o := fst (host_run h unmount w) in
  let run := exec h (deleteLV l volume) w in
  match runErr o with
  | Some err =>
      calls_of run = [Ran unmount]
      /\ result_of run
         = Some (ErrRunningCommand unmount (stdout o) (stderr o) err)
  | None => calls_of run = [Ran unmount; Ran remove]
  end.
Proof.
  cbv zeta. unfold deleteLV, ensureUnmountLV, umount_command, lvremove_command.
  cbn [bind exec].
  destruct (host_run h _ w) as [o w1]. cbn [fst].
  destruct (runErr o) as [err|]; cbn [bind exec]; [now split|].
  destruct (host_run h _ w1) as [o' w2].
  now destruct (runErr o').
Qed.

(** On every host, an unmount command that fails, as it does with exit
    code 32 on a path that is not mounted, makes [deleteLV] return that
    error, and the remove command is not run. *)
Theorem deleteLV_fails_when_unmount_fails
  (l : LVM) (volume : LVMVolume) (w : W) (err : RunError) :
  let unmount := umount_command (volumePath volume) in
  let o := fst (host_run h unmount w) in
  runErr o = Some err ->
  exec h (deleteLV l volume) w
  = (Some (ErrRunningCommand unmount (stdout o) (stderr o) err),
     snd (host_run h unmount w), [Ran unmount]).
Proof.
  cbv zeta. unfold deleteLV, ensureUnmountLV, umount_command.
  cbn [bind exec].
  destruct (host_run h _ w) as [o w1]. cbn [fst snd].
  now intros ->.
Qed.

(** *** Creating *)

Lemma lvcreate_command_eq (l : LVM) (lvName size : string)
  (tags : list string) :
  Command "/sbin/lvcreate"
    (fold_left (fun args tag => (args ++ ["--addtag"; tag])%list) tags
       ["--virtualsize"; size; "--thinpool"; thinpool l; vg l; "--thin";
        "--type"; "thin"; "--name"; lvName])
  = lvcreate_command l lvName size tags.
Proof. unfold lvcreate_command. now rewrite addtag_args. Qed.

Lemma exec_mkfsExt4 (vgName lvName : string) (w : W) :
  let c := mkfs_command vgName lvName in
  let o := fst (host_run h c w) in
  exec h (mkfsExt4 vgName lvName) w
  = (match runErr o with
     | Some err => Some (ErrRunningCommand c (stdout o) (stderr o) err)
     | None => None
     end, snd (host_run h c w), [Ran c]).
Proof.
  cbv zeta. unfold mkfsExt4, mkfs_command. cbn [bind exec].
  destruct (host_run h _ w) as [o w1]. cbn [fst snd].
  now destruct (runErr o).
Qed.

(** X19.  A format that fails after the volume was allocated ends the
    call: two commands were run, and none of them removes the volume. *)
Lemma createThinLV_format_fails
  (l : LVM) (lvName size : string) (tags : list string) (w w1 w2 : W)
  (o1 o2 : Completed) (err : RunError) :
  host_run h (lvcreate_command l lvName size tags) w = (o1, w1) ->
  runErr o1 = None ->
  host_run h (mkfs_command (vg l) lvName) w1 = (o2, w2) ->
  runErr o2 = Some err ->
  exec h (createThinLV Unmarshal l lvName size tags) w
  = (Err (ErrFormatting
            (ErrRunningCommand (mkfs_command (vg l) lvName)
               (stdout o2) (stderr o2) err)),
     w2,
     [Ran (lvcreate_command l lvName size tags);
      Ran (mkfs_command (vg l) lvName)]).
Proof.
  intros Hc Hc0 Hm Hm0. unfold createThinLV.
  rewrite lvcreate_command_eq. cbn [bind exec]. rewrite Hc, Hc0.
  rewrite exec_bind, exec_mkfsExt4, Hm. cbn [fst snd]. rewrite Hm0.
  reflexivity.
Qed.

(** C4.  When the create and the format commands succeed and the query
    by name that follows returns a report without any volume,
    [createThinLV] fails with the error that the new volume has no LV
    info.  That is not the outcome of a volume that is not found:
    [findVolumeByLVName] on the same host returns no handle and no error
    there, and [createThinLV] returns the error. *)
Theorem createThinLV_consistency_error
  (l : LVM) (lvName size : string) (tags : list string) (w w1 w2 w3 : W)
  (o1 o2 : Completed) (rep : report) (calls : list Call) :
  host_run h (lvcreate_command l lvName size tags) w = (o1, w1) ->
  runErr o1 = None ->
  host_run h (mkfs_command (vg l) lvName) w1 = (o2, w2) ->
  runErr o2 = None ->
  exec h (runLVSReport Unmarshal (vg l ++ "/" ++ lvName)) w2
  = (Ok rep, w3, calls) ->
  LogicalVolumes rep = [] ->
  result_of (exec h (createThinLV Unmarshal l lvName size tags) w)
  = Err (ErrNoLVInfo lvName)
  /\ result_of (exec h (findVolumeByLVName Unmarshal l lvName) w2) = Ok None
  /\ result_of (exec h (createThinLV Unmarshal l lvName size tags) w)
     <> Ok None.
Proof.
  intros Hc Hc0 Hm Hm0 Hq Hnone.
  assert (Hfind : exec h (findVolumeByLVName Unmarshal l lvName) w2
                  = (Ok None, w3, calls)).
  { unfold findVolumeByLVName.
    rewrite exec_bind, exec_findLVInfo, Hq, Hnone. cbn [exec].
    now rewrite app_nil_r. }
  assert (Hcreate :
    result_of (exec h (createThinLV Unmarshal l lvName size tags) w)
    = Err (ErrNoLVInfo lvName)).
  { unfold createThinLV.
    rewrite lvcreate_command_eq. cbn [bind exec]. rewrite Hc, Hc0.
    rewrite exec_bind, exec_mkfsExt4, Hm. cbn [fst snd]. rewrite Hm0.
    rewrite exec_bind, Hfind. reflexivity. }
  repeat split.
  - exact Hcreate.
  - now rewrite Hfind.
  - rewrite Hcreate. discriminate.
Qed.

End ManagerProperties.

(** * Instances *)

(** ** The query *)

Lemma lvs_failed_to_find_pattern :
  not_found_pattern "pool/vol1" lvs_failed_to_find.
Proof.
  split; [reflexivity|]. split; [vm_compute; reflexivity | discriminate].
Defined.

Lemma lvs_failed_to_find_silent_pattern :
  not_found_pattern "pool/vol1" lvs_failed_to_find_silent.
Proof.
  split; [reflexivity|]. split; [vm_compute; reflexivity | discriminate].
Defined.



Lemma runLVSReport_exactly_one_report_witness :
  (exists e,
      result_of (exec scripted.host (runLVSReport json.Unmarshal "pool/vol1")
                   [lvs_two_sections]) = Err e
      /\ is_malformed_output e = true)
  /\ (exists e,
         result_of (exec scripted.host (runLVSReport json.Unmarshal EmptyString)
                      [lvs_no_section]) = Err e
         /\ is_malformed_output e = true)
  /\ (exists e,
         result_of (exec scripted.host (runLVSReport json.Unmarshal EmptyString)
                      [succeeded "{ report: [] }"]) = Err e
         /\ is_malformed_output e = true)
  /\ result_of (exec scripted.host (runLVSReport json.Unmarshal "pool/vol1")
                  [lvs_failed_to_find])
     = Ok no_volumes
  /\ result_of (exec scripted.host (runLVSReport json.Unmarshal EmptyString)
                  [succeeded (json.render_report [])])
     = Ok no_volumes.
Proof.
  split; [|split; [|split; [|split]]].
  - refine (proj1 (@runLVSReport_exactly_one_report
                     json.Unmarshal _ scripted.host "pool/vol1"
                     [lvs_two_sections] (or_introl eq_refl))
              {| Reports := [no_volumes; no_volumes] |} _ _).
    + vm_compute. reflexivity.
    + discriminate.
  - refine (proj1 (@runLVSReport_exactly_one_report
                     json.Unmarshal _ scripted.host EmptyString
                     [lvs_no_section] (or_introl eq_refl))
              {| Reports := [] |} _ _).
    + vm_compute. reflexivity.
    + discriminate.
  - refine (proj1 (proj2 (@runLVSReport_exactly_one_report
                            json.Unmarshal _ scripted.host EmptyString
                            [succeeded "{ report: [] }"] (or_introl eq_refl)))
              SyntaxError _).
    vm_compute. reflexivity.
  - refine (proj2 (proj2 (proj2 (@runLVSReport_exactly_one_report
                                   json.Unmarshal _ scripted.host "pool/vol1"
                                   [lvs_failed_to_find]
                                   (or_intror lvs_failed_to_find_pattern))))
              {| Reports := [no_volumes] |} _ eq_refl).
    vm_compute. reflexivity.
  - refine (proj2 (proj2 (proj2 (@runLVSReport_exactly_one_report
                                   json.Unmarshal _ scripted.host EmptyString
                                   [succeeded (json.render_report [])]
                                   (or_introl eq_refl))))
              {| Reports := [no_volumes] |} _ eq_refl).
    vm_compute. reflexivity.
Defined.

Lemma runLVSReport_not_found_still_parses_witness :
  not_found_pattern "pool/vol1" lvs_failed_to_find_silent
  /\ stdout lvs_failed_to_find_silent = EmptyString
  /\ json.Unmarshal EmptyString = Err SyntaxError
  /\ result_of (exec scripted.host (runLVSReport json.Unmarshal "pool/vol1")
                  [lvs_failed_to_find_silent])
     = Err (ErrParsingOutput (lvs_command "pool/vol1") EmptyString
              (stderr lvs_failed_to_find_silent) SyntaxError).
Proof.
  refine (conj lvs_failed_to_find_silent_pattern
            (conj eq_refl (conj eq_refl _))).
  exact (proj1 (proj2 (@runLVSReport_not_found_still_parses
                         json.Unmarshal _ scripted.host "pool/vol1"
                         [lvs_failed_to_find_silent]
                         lvs_failed_to_find_silent_pattern))
           SyntaxError eq_refl eq_refl).
Defined.

(** ** Finding, mounting, deleting, creating *)

Lemma findVolumeByVolumeID_none_or_many_witness :
  exec fake.host (findVolumeByVolumeID json.Unmarshal pool "vol2") vol1_mounted
  = (Ok None, vol1_mounted, [Ran (lvs_command "pool/vol2")])
  /\ exec scripted.host (findVolumeByVolumeID json.Unmarshal pool "vol1")
       [lvs_two_records]
     = (Err (ErrMultipleLVs 2), [], [Ran (lvs_command "pool/vol1")]).
Proof.
  split.
  - refine (proj1 (@findVolumeByVolumeID_none_or_many
                     json.Unmarshal _ fake.host pool "vol2"
                     vol1_mounted vol1_mounted no_volumes
                     [Ran (lvs_command "pool/vol2")] _) eq_refl).
    vm_compute. reflexivity.
  - refine (proj2 (@findVolumeByVolumeID_none_or_many
                     json.Unmarshal _ scripted.host pool "vol1"
                     [lvs_two_records] []
                     {| LogicalVolumes := [info vol1; info vol1] |}
                     [Ran (lvs_command "pool/vol1")] _) _).
    + vm_compute. reflexivity.
    + simpl. lia.
Defined.

(** Exit code 32 and a standard error that says [already mounted] do not
    make [ensureMountLV] succeed when the word [on] does not follow. *)
Lemma ensureMountLV_already_mounted_counterexample :
  runErr mount_already_mounted_or_busy = Some (ExitError 32)
  /\ mentions (stderr mount_already_mounted_or_busy) "already mounted"
  /\ result_of (exec scripted.host
                  (ensureMountLV "pool" "vol1" "/volumes/pool/vol1")
                  [mount_already_mounted_or_busy])
     = Some (ErrRunningCommand
               (mount_command "pool" "vol1" "/volumes/pool/vol1")
               EmptyString (stderr mount_already_mounted_or_busy)
               (ExitError 32)).
Proof.
  split; [reflexivity|]. split; vm_compute; reflexivity.
Qed.

Lemma ensureMountLV_already_mounted_twice_witness :
  already_mounted_pattern
    (fst (host_run fake.host
            (mount_command "pool" "vol1" "/volumes/pool/vol1") vol1_mounted))
  /\ result_of (exec fake.host
                  (ensureMountLV "pool" "vol1" "/volumes/pool/vol1")
                  vol1_mounted) = None
  /\ result_of
       (exec fake.host (ensureMountLV "pool" "vol1" "/volumes/pool/vol1")
          (world_of (exec fake.host
                       (ensureMountLV "pool" "vol1" "/volumes/pool/vol1")
                       vol1_mounted))) = None
  /\ fake.mounted
       (world_of
          (exec fake.host (ensureMountLV "pool" "vol1" "/volumes/pool/vol1")
             (world_of (exec fake.host
                          (ensureMountLV "pool" "vol1" "/volumes/pool/vol1")
                          vol1_mounted))))
     = ["/volumes/pool/vol1"].
Proof.
  pose (c := mount_command "pool" "vol1" "/volumes/pool/vol1").
  pose (w1 := snd (host_mkdir fake.host "/volumes/pool/vol1" 511 vol1_mounted)).
  pose (w3 := snd (host_mkdir fake.host "/volumes/pool/vol1" 511 w1)).
  assert (Hpat0 : already_mounted_pattern
                    (fst (host_run fake.host c vol1_mounted)))
    by (split; vm_compute; reflexivity).
  assert (Hpat1 : already_mounted_pattern (fst (host_run fake.host c w1)))
    by (split; vm_compute; reflexivity).
  assert (Hpat3 : already_mounted_pattern (fst (host_run fake.host c w3)))
    by (split; vm_compute; reflexivity).
  pose proof (@ensureMountLV_already_mounted_twice
                _ fake.host "pool" "vol1" "/volumes/pool/vol1"
                vol1_mounted w1 w1 w3 w3
                (fst (host_run fake.host c w1))
                (fst (host_run fake.host c w3))
                eq_refl eq_refl Hpat1 eq_refl eq_refl Hpat3) as [H1 H2].
  split; [exact Hpat0|].
  split; [now rewrite H1|].
  rewrite H1. cbn [world_of fst snd]. rewrite H2. split; reflexivity.
Defined.

(** On the recording host, creating [vol1] in an empty pool runs the
    create, format and query commands, makes the directory and mounts:
    the handle is [vol1] and the host is [vol1_mounted]. *)
Example createThinLV_on_empty_pool :
  exec fake.host
    (createThinLV json.Unmarshal pool "vol1" "1073741824B" ["owner=team-a"])
    (fake.empty "pool" true)
  = (Ok (Some vol1), vol1_mounted,
     [Ran (lvcreate_command pool "vol1" "1073741824B" ["owner=team-a"]);
      Ran (mkfs_command "pool" "vol1");
      Ran (lvs_command "pool/vol1");
      MadeDir "/volumes/pool/vol1" 511;
      Ran (mount_command "pool" "vol1" "/volumes/pool/vol1")]).
Proof. vm_compute. reflexivity. Qed.

(** On the recording host, deleting a mounted volume runs the unmount
    command and then the remove command, and the pool is empty after. *)
Example deleteLV_on_mounted_volume :
  exec fake.host (deleteLV pool vol1) vol1_mounted
  = (None,
     {| fake.group := "pool";
        fake.volumes := [];
        fake.mounted := [];
        fake.directories := ["/volumes/pool/vol1"];
        fake.mkfs_works := true |},
     [Ran (umount_command "/volumes/pool/vol1");
      Ran (lvremove_command pool vol1)]).
Proof. vm_compute. reflexivity. Qed.

(** On a volume whose path is not mounted the unmount command says so
    and [deleteLV] fails: the remove command is not run and the volume
    stays. *)
Lemma deleteLV_not_mounted_counterexample :
  mentions
    (stderr (fst (host_run fake.host (umount_command "/volumes/pool/vol1")
                    vol1_unmounted)))
    "not mounted"
  /\ exec fake.host (deleteLV pool vol1) vol1_unmounted
     = (Some (ErrRunningCommand (umount_command "/volumes/pool/vol1")
                EmptyString "umount: /volumes/pool/vol1: not mounted."
                (ExitError 32)),
        vol1_unmounted,
        [Ran (umount_command "/volumes/pool/vol1")])
  /\ fake.volumes vol1_unmounted = [stored_vol1 true].
Proof.
  split; [vm_compute; reflexivity|]. split; [vm_compute|]; reflexivity.
Qed.

Lemma deleteLV_fails_when_unmount_fails_witness :
  runErr (fst (host_run fake.host (umount_command (volumePath vol1))
                 vol1_unmounted))
  = Some (ExitError 32)
  /\ exec fake.host (deleteLV pool vol1) vol1_unmounted
     = (Some (ErrRunningCommand (umount_command "/volumes/pool/vol1")
                EmptyString "umount: /volumes/pool/vol1: not mounted."
                (ExitError 32)),
        vol1_unmounted,
        [Ran (umount_command "/volumes/pool/vol1")]).
Proof.
  split; [reflexivity|].
  exact (@deleteLV_fails_when_unmount_fails
           _ fake.host pool vol1 vol1_unmounted (ExitError 32) eq_refl).
Defined.

Lemma createThinLV_consistency_error_witness :
  result_of
    (exec scripted.host
       (createThinLV json.Unmarshal pool "vol1" "1073741824B" ["owner=team-a"])
       [succeeded EmptyString; succeeded EmptyString; lvs_failed_to_find])
  = Err (ErrNoLVInfo "vol1")
  /\ result_of
       (exec scripted.host (findVolumeByLVName json.Unmarshal pool "vol1")
          [lvs_failed_to_find])
     = Ok None.
Proof.
  pose proof (@createThinLV_consistency_error
                json.Unmarshal _ scripted.host pool "vol1" "1073741824B"
                ["owner=team-a"]
                [succeeded EmptyString; succeeded EmptyString;
                 lvs_failed_to_find]
                [succeeded EmptyString; lvs_failed_to_find]
                [lvs_failed_to_find] []
                (succeeded EmptyString) (succeeded EmptyString)
                no_volumes [Ran (lvs_command "pool/vol1")]
                eq_refl eq_refl eq_refl eq_refl) as H.
  assert (Hq : exec scripted.host (runLVSReport json.Unmarshal "pool/vol1")
                 [lvs_failed_to_find]
               = (Ok no_volumes, [], [Ran (lvs_command "pool/vol1")]))
    by (vm_compute; reflexivity).
  destruct (H Hq eq_refl) as (H1 & H2 & _). now split.
Defined.

(** C2.  The code leaves the volume behind.  On a host where
    [lvcreate] succeeds and [mkfs.ext4] fails, [createThinLV] returns the
    format error after these two commands: the volume it allocated is
    still in the pool.  The caller has no way back through the manager:
    creating again fails because the name is taken, and finding the
    volume fails at the mount, so there is no handle to delete. *)
Theorem createThinLV_leaves_LV_when_format_fails :
  exec fake.host
    (createThinLV json.Unmarshal pool "vol1" "1073741824B" ["owner=team-a"])
    pool_without_mkfs
  = (Err (ErrFormatting
            (ErrRunningCommand (mkfs_command "pool" "vol1") EmptyString
               "mkfs.ext4: Input/output error while writing"
               (ExitError 1))),
     vol1_unformatted,
     [Ran (lvcreate_command pool "vol1" "1073741824B" ["owner=team-a"]);
      Ran (mkfs_command "pool" "vol1")])
  /\ map fake.name (fake.volumes vol1_unformatted) = ["vol1"]
  /\ (exists out err,
         result_of
           (exec fake.host
              (createThinLV json.Unmarshal pool "vol1" "1073741824B"
                 ["owner=team-a"])
              vol1_unformatted)
         = Err (ErrRunningCommand
                  (lvcreate_command pool "vol1" "1073741824B" ["owner=team-a"])
                  out err (ExitError 5)))
  /\ (exists out err,
         result_of
           (exec fake.host (findVolumeByVolumeID json.Unmarshal pool "vol1")
              vol1_unformatted)
         = Err (ErrRunningCommand
                  (mount_command "pool" "vol1" "/volumes/pool/vol1")
                  out err (ExitError 32))).
Proof.
  split; [vm_compute; reflexivity|]. split; [reflexivity|].
  split; do 2 eexists; vm_compute; reflexivity.
Qed.

(** * Further properties *)

(** ** Tags *)

Lemma append_assoc (a b c : string) : (a ++ b) ++ c = a ++ b ++ c.
Proof. induction a as [|x a IH]; simpl; [reflexivity | now rewrite IH]. Qed.

Lemma append_empty_r (a : string) : a ++ EmptyString = a.
Proof. induction a as [|x a IH]; simpl; [reflexivity | now rewrite IH]. Qed.

Lemma HasPrefix_app (p q : string) : strings.HasPrefix (p ++ q) p = true.
Proof.
  unfold strings.HasPrefix.
  rewrite length_app, substring_app_left, String.eqb_refl, andb_true_r.
  apply Nat.leb_le. lia.
Qed.

Lemma TrimPrefix_app (p q : string) : strings.TrimPrefix (p ++ q) p = q.
Proof.
  unfold strings.TrimPrefix. rewrite HasPrefix_app, length_app.
  replace (String.length p + String.length q - String.length p)%nat
    with (String.length q) by lia.
  apply substring_app_right.
Qed.

Lemma HasPrefix_inv (s p : string) :
  strings.HasPrefix s p = true -> s = p ++ strings.TrimPrefix s p.
Proof.
  intros H. unfold strings.TrimPrefix. rewrite H.
  unfold strings.HasPrefix in H. apply andb_true_iff in H as [Hlen Heq].
  apply Nat.leb_le in Hlen. apply String.eqb_eq in Heq.
  pose proof (@substring_split s _ Hlen) as Hs. now rewrite Heq in Hs.
Qed.

Lemma HasPrefix_empty (p : string) :
  p <> EmptyString -> strings.HasPrefix EmptyString p = false.
Proof. now destruct p. Qed.

Lemma Split_nonempty (s : string) (sep : ascii) : strings.Split s sep <> [].
Proof.
  destruct s as [|c s]; simpl; [discriminate|].
  destruct (Ascii.eqb c sep); [discriminate|].
  destruct (strings.Split s sep); discriminate.
Qed.

(** A piece without comma in front of a comma is the first piece. *)
Lemma Split_piece (a s : string) :
  comma_free a = true ->
  strings.Split (a ++ String "," s) "," = a :: strings.Split s ",".
Proof.
  induction a as [|c a IH]; intros H; simpl in *.
  - reflexivity.
  - apply andb_true_iff in H as [Hc Ha]. apply negb_true_iff in Hc.
    rewrite Hc, (IH Ha). reflexivity.
Qed.

Lemma Split_last (a : string) :
  comma_free a = true -> strings.Split a "," = [a].
Proof.
  induction a as [|c a IH]; intros H; simpl in *.
  - reflexivity.
  - apply andb_true_iff in H as [Hc Ha]. apply negb_true_iff in Hc.
    rewrite Hc, (IH Ha). reflexivity.
Qed.

(** Joining the pieces with commas gives the string back. *)
Lemma Split_join (s : string) : String.concat "," (strings.Split s ",") = s.
Proof.
  induction s as [|c s IH]; [reflexivity|].
  cbn [strings.Split].
  pose proof (@Split_nonempty s ",") as Hne.
  destruct (Ascii.eqb_spec c ",") as [->|Hc].
  - destruct (strings.Split s ",") as [|p ps]; [congruence|].
    cbn [String.concat] in *. now rewrite IH.
  - destruct (strings.Split s ",") as [|p [|q ps]]; [congruence| |];
      cbn [String.concat] in *; now rewrite <- IH.
Qed.

Lemma Split_comma_free (s : string) :
  Forall (fun piece => comma_free piece = true) (strings.Split s ",").
Proof.
  induction s as [|c s IH]; cbn [strings.Split].
  - now repeat constructor.
  - destruct (Ascii.eqb c ",") eqn:Hc.
    + constructor; [reflexivity | exact IH].
    + destruct (strings.Split s ",") as [|p ps].
      { constructor; [simpl; now rewrite Hc | constructor]. }
      inversion IH as [|? ? Hp Hps]; subst. constructor; [|exact Hps].
      simpl. now rewrite Hc, Hp.
Qed.

(** The pieces of a joined list begin with the members that have no
    comma. *)
Lemma Split_joined (before : list string) (tag : string)
  (after : list string) :
  Forall (fun t => comma_free t = true) before -> comma_free tag = true ->
  exists more,
    strings.Split (String.concat "," (before ++ tag :: after)%list) ","
    = (before ++ tag :: more)%list.
Proof.
  intros Hb Ht. induction Hb as [|b before Hb0 Hb IH].
  - cbn [app]. destruct after as [|a after].
    + exists []. now apply Split_last.
    + cbn [String.concat]. change ("," ++ ?x) with (String "," x).
      rewrite (@Split_piece tag _ Ht). now eexists.
  - destruct IH as [more IH]. exists more.
    cbn [app]. destruct (before ++ tag :: after)%list as [|x l] eqn:E.
    { now destruct before. }
    change (String.concat "," (b :: x :: l))
      with (b ++ String "," (String.concat "," (x :: l))).
    rewrite (@Split_piece b _ Hb0). now rewrite IH.
Qed.

Lemma comma_free_app (a b : string) :
  comma_free (a ++ b) = comma_free a && comma_free b.
Proof.
  induction a as [|c a IH]; simpl; [reflexivity|].
  now rewrite IH, andb_assoc.
Qed.

Lemma FindTag_range_skips (key : string) (before rest : list string) :
  Forall (other_tag key) before ->
  FindTag_range (before ++ rest)%list key = FindTag_range rest key.
Proof.
  induction 1 as [|b before [_ Hb] _ IH]; [reflexivity|].
  cbn [app FindTag_range]. now rewrite Hb.
Qed.

(** X1.  Round trip of a tag through the tag string: when the tags are
    joined with commas, [FindTag] returns the value of the first tag that
    begins with the key and an equals sign, whatever follows that tag,
    provided the key, the value and the tags in front are free of
    commas. *)
Theorem FindTag_of_joined_tags
  (r : reportLV) (key value : string) (before after : list string) :
  LogicalVolumeTags r
  = String.concat ","
      (before ++ (key ++ "=" ++ value)%string :: after)%list ->
  Forall (other_tag key) before ->
  comma_free key = true -> comma_free value = true ->
  FindTag r key = (value, true).
Proof.
  intros Htags Hbefore Hkey Hvalue. unfold FindTag. rewrite Htags.
  assert (Htag : comma_free (key ++ "=" ++ value) = true).
  { rewrite !comma_free_app, Hkey, Hvalue. reflexivity. }
  assert (Hfree : Forall (fun t => comma_free t = true) before).
  { eapply Forall_impl; [|exact Hbefore]. now intros t [Ht _]. }
  destruct (@Split_joined before _ after Hfree Htag) as [more ->].
  rewrite (@FindTag_range_skips key before _ Hbefore). cbn [FindTag_range].
  rewrite <- append_assoc, HasPrefix_app, TrimPrefix_app. reflexivity.
Qed.

(** X2.  A missing tag is no error: when no tag of a comma-joined list
    begins with the key and an equals sign, the empty list included,
    [FindTag] returns the empty string and [false]. *)
Theorem FindTag_absent (r : reportLV) (key : string) (tags : list string) :
  LogicalVolumeTags r = String.concat "," tags ->
  Forall (other_tag key) tags ->
  FindTag r key = (EmptyString, false).
Proof.
  intros Htags Hother. unfold FindTag. rewrite Htags.
  destruct tags as [|t tags].
  - cbn. rewrite HasPrefix_empty; [reflexivity|]. now destruct key.
  - assert (Hsplit : strings.Split (String.concat "," (t :: tags)) ","
                     = (t :: tags)%list).
    { clear Htags. revert t Hother.
      induction tags as [|u tags IH]; intros t Hother;
        inversion Hother as [|? ? [Ht _] Hrest]; subst.
      - now apply Split_last.
      - change (String.concat "," (t :: u :: tags))
          with (t ++ String "," (String.concat "," (u :: tags))).
        rewrite (@Split_piece t _ Ht). f_equal. now apply IH. }
    rewrite Hsplit, <- (app_nil_r (t :: tags)).
    now rewrite (@FindTag_range_skips key _ [] Hother).
Qed.

(** X3.  What [FindTag] finds is in the tag string: a value found stands
    right behind the key and an equals sign, in a piece that starts the
    string or follows a comma and that ends the string or is followed by
    a comma; and the value returned when nothing is found is empty. *)
Theorem FindTag_sound (r : reportLV) (key value : string) (found : bool) :
  FindTag r key = (value, found) ->
  if found then
    comma_free value = true
    /\ exists pre post,
         LogicalVolumeTags r = pre ++ (key ++ "=" ++ value) ++ post
         /\ (pre = EmptyString \/ exists pre', pre = pre' ++ ",")
         /\ (post = EmptyString \/ exists post', post = "," ++ post')
  else value = EmptyString.
Proof.
  unfold FindTag.
  assert (Hgen : forall pieces,
    Forall (fun piece => comma_free piece = true) pieces ->
    forall pre0,
    (pre0 = EmptyString \/ exists pre', pre0 = pre' ++ ",") ->
    FindTag_range pieces key = (value, found) ->
    if found then
      comma_free value = true
      /\ exists pre post,
           pre0 ++ String.concat "," pieces
           = pre ++ (key ++ "=" ++ value) ++ post
           /\ (pre = EmptyString \/ exists pre', pre = pre' ++ ",")
           /\ (post = EmptyString \/ exists post', post = "," ++ post')
    else value = EmptyString).
  { intros pieces Hfree.
    induction Hfree as [|kv rest Hkv Hrest IH]; intros pre0 Hpre0 H.
    - cbn in H. now inversion H.
    - cbn [FindTag_range] in H.
      destruct (strings.HasPrefix kv (key ++ "=")) eqn:Hp.
      + inversion H; subst. apply HasPrefix_inv in Hp.
        set (v := strings.TrimPrefix kv (key ++ "=")) in *.
        rewrite Hp, comma_free_app in Hkv.
        apply andb_true_iff in Hkv as [_ Hv]. split; [exact Hv|].
        exists pre0.
        exists (match rest with
                | [] => EmptyString
                | _ => "," ++ String.concat "," rest
                end).
        split; [|split; [exact Hpre0|]].
        * f_equal. rewrite <- (append_assoc key "=" v), <- Hp.
          destruct rest; cbn [String.concat];
            [now rewrite append_empty_r | reflexivity].
        * destruct rest; [now left | right; now eexists].
      + destruct rest as [|kv' rest'].
        { cbn in H. now inversion H. }
        specialize (IH (pre0 ++ kv ++ ",")).
        assert (Hpre : pre0 ++ kv ++ "," = EmptyString
                       \/ exists pre', pre0 ++ kv ++ "," = pre' ++ ",").
        { right. exists (pre0 ++ kv). now rewrite append_assoc. }
        specialize (IH Hpre H). cbn [String.concat].
        destruct found; [|exact IH].
        destruct IH as [Hv (pre & post & Heq & Hp1 & Hp2)].
        split; [exact Hv|]. exists pre, post. split; [|now split].
        rewrite <- Heq. now rewrite !append_assoc. }
  intros H.
  specialize (Hgen _ (Split_comma_free (LogicalVolumeTags r))
                EmptyString (or_introl eq_refl) H).
  now rewrite Split_join in Hgen.
Qed.

(** ** Sizes *)

Lemma digits_dec (s : string) : digits s \/ ~ digits s.
Proof.
  unfold digits. destruct s as [|c s]; [right; now intros [H _]|].
  destruct (all_digits (String c s)); [left | right].
  - now split.
  - now intros [_ H].
Qed.

Lemma sign_not_digit (c : ascii) (s : string) :
  Ascii.eqb c "+" = true \/ Ascii.eqb c "-" = true -> ~ digits (String c s).
Proof.
  intros Hc Hd. destruct (digits_head Hd) as [Hp Hm].
  destruct Hc as [Hc|Hc]; congruence.
Qed.

Lemma decimal_integer_dec (p : string) :
  (exists v, decimal_integer p v) \/ (forall v, ~ decimal_integer p v).
Proof.
  destruct p as [|c rest].
  { right. intros v H. inversion H as [ds [Hne _]|ds|ds]. now apply Hne. }
  destruct (Ascii.eqb_spec c "+") as [->|Hplus].
  { destruct (digits_dec rest) as [Hd|Hd].
    - left. eexists. exact (plus_integer Hd).
    - right. intros v H. inversion H as [ds Hds|ds Hds|ds Hds]; subst.
      + revert Hds. apply sign_not_digit. now left.
      + now apply Hd. }
  destruct (Ascii.eqb_spec c "-") as [->|Hminus].
  { destruct (digits_dec rest) as [Hd|Hd].
    - left. eexists. exact (minus_integer Hd).
    - right. intros v H. inversion H as [ds Hds|ds Hds|ds Hds]; subst.
      + revert Hds. apply sign_not_digit. now right.
      + now apply Hd. }
  destruct (digits_dec (String c rest)) as [Hd|Hd].
  - left. eexists. exact (unsigned_integer Hd).
  - right. intros v H. inversion H as [ds Hds|ds Hds|ds Hds]; subst;
      [now apply Hd | now apply Hplus | now apply Hminus].
Qed.

(** What [ParseInt] returns without an error is the value of a decimal
    integer that fits. *)
Lemma ParseInt_inr (p : string) (n : Z) :
  strconv.ParseInt p = inr n -> decimal_integer p n /\ fits_int64 n.
Proof.
  intros H. destruct (decimal_integer_dec p) as [[v Hv]|Hno].
  - destruct (ParseInt_decimal Hv) as [Hok Herr].
    assert (Hfit : fits_int64 v \/ ~ fits_int64 v)
      by (unfold fits_int64; lia).
    destruct Hfit as [Hfit|Hfit].
    + rewrite (Hok Hfit) in H. inversion H; subst. now split.
    + rewrite (Herr Hfit) in H. discriminate.
  - destruct (ParseInt_other Hno) as [e He]. congruence.
Qed.

(** X4.  [VolumeSizeBytes] succeeds on nothing else: a size it returns
    is the value of a decimal integer that fits a signed 64-bit integer
    and that, followed by one [B] or [b], makes up the whole size
    string. *)
Theorem VolumeSizeBytes_sound (r : LVMVolume) (v : Z) :
  VolumeSizeBytes r = Ok v ->
  fits_int64 v
  /\ exists p suffix,
       LogicalVolumeSize (info r) = p ++ suffix
       /\ byte_suffix suffix
       /\ decimal_integer p v.
Proof.
  unfold VolumeSizeBytes.
  set (s := LogicalVolumeSize (info r)).
  assert (Hgen : forall suffix,
    byte_suffix suffix -> strings.HasSuffix s suffix = true ->
    match strconv.ParseInt (strings.TrimSuffix s suffix) with
    | inl err => Err (ParsingSize s err)
    | inr n => Ok (strconv.int64 (n * 1))
    end = Ok v ->
    fits_int64 v
    /\ exists p suffix0,
         s = p ++ suffix0 /\ byte_suffix suffix0 /\ decimal_integer p v).
  { intros suffix Hsuf Hhas H.
    destruct (strconv.ParseInt _) as [e|n] eqn:E; [discriminate|].
    apply ParseInt_inr in E as [Hdec Hfit].
    rewrite Z.mul_1_r, (int64_small Hfit) in H. inversion H; subst.
    split; [exact Hfit|].
    exists (strings.TrimSuffix s suffix), suffix.
    split; [now apply HasSuffix_inv | now split]. }
  destruct (strings.HasSuffix s "B") eqn:EB.
  { apply Hgen; [now left | exact EB]. }
  destruct (strings.HasSuffix s "b") eqn:Eb.
  { apply Hgen; [now right | exact Eb]. }
  discriminate.
Qed.

Lemma uint_all_digits (d : Decimal.uint) :
  all_digits (NilEmpty.string_of_uint d) = true.
Proof. induction d; simpl; [reflexivity | exact IHd ..]. Qed.

Lemma uint_acc_value (d : Decimal.uint) :
  forall acc,
    Z.pos (Pos.of_uint_acc d acc)
    = Z.pos acc * 10 ^ Z.of_nat (String.length (NilEmpty.string_of_uint d))
      + decimal_value (NilEmpty.string_of_uint d).
Proof.
  induction d; intros acc;
    cbn [Pos.of_uint_acc NilEmpty.string_of_uint String.length decimal_value];
    [cbn; lia | ..];
    rewrite IHd, Nat2Z.inj_succ, Z.pow_succ_r by lia;
    match goal with
    | |- context [Z.of_N (N_of_ascii ?c) - 48] =>
        let k := eval vm_compute in (Z.of_N (N_of_ascii c) - 48) in
        change (Z.of_N (N_of_ascii c) - 48) with k
    end;
    lia.
Qed.

Lemma uint_value (d : Decimal.uint) :
  Z.of_N (Pos.of_uint d) = decimal_value (NilEmpty.string_of_uint d).
Proof.
  induction d;
    cbn [Pos.of_uint NilEmpty.string_of_uint decimal_value Z.of_N];
    [reflexivity | ..];
    try rewrite uint_acc_value;
    match goal with
    | |- context [Z.of_N (N_of_ascii ?c) - 48] =>
        let k := eval vm_compute in (Z.of_N (N_of_ascii c) - 48) in
        change (Z.of_N (N_of_ascii c) - 48) with k
    end;
    lia.
Qed.

Lemma to_uint_digits (p : positive) :
  NilZero.string_of_uint (Pos.to_uint p)
  = NilEmpty.string_of_uint (Pos.to_uint p)
  /\ digits (NilEmpty.string_of_uint (Pos.to_uint p))
  /\ decimal_value (NilEmpty.string_of_uint (Pos.to_uint p)) = Z.pos p.
Proof.
  pose proof (Unsigned.to_uint_nonnil p) as Hne.
  split; [|split; [split|]].
  - unfold NilZero.string_of_uint. now destruct (Pos.to_uint p).
  - now destruct (Pos.to_uint p).
  - apply uint_all_digits.
  - now rewrite <- uint_value, DecimalPos.Unsigned.of_to.
Qed.

(** The decimal notation of an integer is a decimal integer, and that
    integer is its value. *)
Lemma decimal_is_integer (n : Z) : decimal_integer (decimal n) n.
Proof.
  unfold decimal. destruct n as [|p|p]; cbn [Z.to_int NilZero.string_of_int].
  - apply (unsigned_integer (ds := "0")). now split.
  - destruct (to_uint_digits p) as (-> & Hd & Hv).
    rewrite <- Hv. now apply unsigned_integer.
  - destruct (to_uint_digits p) as (-> & Hd & Hv).
    replace (Z.neg p)
      with (- decimal_value (NilEmpty.string_of_uint (Pos.to_uint p)))
      by (rewrite Hv; reflexivity).
    now apply minus_integer.
Qed.

(** X5.  Round trip of a size: the decimal notation of an integer with
    [B] or [b] behind it is read back as that integer when it fits a
    signed 64-bit integer, and is refused with a range error when it does
    not. *)
Theorem VolumeSizeBytes_of_decimal (r : LVMVolume) (n : Z) (suffix : string) :
  LogicalVolumeSize (info r) = decimal n ++ suffix ->
  byte_suffix suffix ->
  (fits_int64 n -> VolumeSizeBytes r = Ok n)
  /\ (~ fits_int64 n ->
      VolumeSizeBytes r
      = Err (ParsingSize (LogicalVolumeSize (info r)) strconv.ErrRange)).
Proof.
  intros Hs Hsuf. rewrite (VolumeSizeBytes_suffixed r (decimal n) Hs Hsuf).
  destruct (ParseInt_decimal (decimal_is_integer n)) as [Hok Herr]. split.
  - intros Hfit. rewrite (Hok Hfit). now rewrite Z.mul_1_r, int64_small.
  - intros Hfit. now rewrite (Herr Hfit).
Qed.

(** ** The manager on any host *)

Lemma prefix_app (p q : string) : String.prefix p (p ++ q) = true.
Proof.
  induction p as [|c p IH]; simpl; [now destruct q|].
  destruct (ascii_dec c c); [exact IH | congruence].
Qed.

Lemma Contains_app (pre phrase post : string) :
  strings.Contains (pre ++ phrase ++ post) phrase = true.
Proof.
  induction pre as [|c pre IH].
  - cbn [append]. destruct (phrase ++ post) eqn:E; cbn [strings.Contains];
      rewrite <- E, prefix_app; reflexivity.
  - cbn [append strings.Contains]. rewrite IH. apply orb_true_r.
Qed.

Section FurtherManagerProperties.

Variable Unmarshal : Unmarshaler.
Variable W : Type.
Variable h : Host W.

Lemma exec_runLVSReport_shape (volumeName : string) (w : W) :
  exists r,
    exec h (runLVSReport Unmarshal volumeName) w
    = (r, snd (host_run h (lvs_command volumeName) w),
       [Ran (lvs_command volumeName)]).
Proof.
  destruct (@runLVSReport_calls Unmarshal W h volumeName w) as [Hw Hc].
  destruct (exec h (runLVSReport Unmarshal volumeName) w) as [[r w1] calls].
  cbn [world_of calls_of fst snd] in Hw, Hc. subst. now exists r.
Qed.

Lemma exec_ensureMountLV (vgName lvName mountPath : string) (w : W) :
  let c := mount_command vgName lvName mountPath in
  exec h (ensureMountLV vgName lvName mountPath) w
  = match host_mkdir h mountPath 511 w with
    | (Some err, w1) =>
        (Some (ErrCreatingMountDir mountPath err), w1,
         [MadeDir mountPath 511])
    | (None, w1) =>
        let o := fst (host_run h c w1) in
        (match runErr o with
         | Some (ExitError code) =>
             if (code =? 32)
                && strings.Contains (stderr o) "already mounted on"
             then None
             else Some (ErrRunningCommand c (stdout o) (stderr o)
                          (ExitError code))
         | Some OtherRunError =>
             Some (ErrRunningCommand c (stdout o) (stderr o) OtherRunError)
         | None => None
         end, snd (host_run h c w1), [MadeDir mountPath 511; Ran c])
    end.
Proof.
  cbv zeta. unfold ensureMountLV, mount_command. cbn [bind exec].
  destruct (host_mkdir h mountPath 511 w) as [[err|] w1]; [reflexivity|].
  cbn [bind exec]. destruct (host_run h _ w1) as [o w2]. cbn [fst snd].
  destruct (runErr o) as [[code|]|]; try reflexivity.
  now destruct ((code =? 32) && _).
Qed.

(** *** Mounting *)

(** X6.  [ensureMountLV] makes the mount directory, with mode 0777,
    before anything else: when that fails it returns the error of the
    directory and the mount command is not run, and otherwise the mount
    command is the one command that follows. *)
Theorem ensureMountLV_makes_directory_first
  (vgName lvName mountPath : string) (w : W) :
  let run := exec h (ensureMountLV vgName lvName mountPath) w in
  match fst (host_mkdir h mountPath 511 w) with
  | Some err =>
      run = (Some (ErrCreatingMountDir mountPath err),
             snd (host_mkdir h mountPath 511 w),
             [MadeDir mountPath 511])
  | None =>
      calls_of run
      = [MadeDir mountPath 511;
         Ran (mount_command vgName lvName mountPath)]
  end.
Proof.
  cbv zeta. rewrite exec_ensureMountLV.
  now destruct (host_mkdir h mountPath 511 w) as [[err|] w1].
Qed.

(** X7.  Once the directory is there, [ensureMountLV] succeeds exactly
    when the mount command returns no error or fails inside the
    already-mounted pattern; in every other case it returns the error of
    the mount command with both captured streams. *)
Theorem ensureMountLV_succeeds_iff
  (vgName lvName mountPath : string) (w w1 : W) :
  let c := mount_command vgName lvName mountPath in
  let o := fst (host_run h c w1) in
  let result := result_of (exec h (ensureMountLV vgName lvName mountPath) w) in
  host_mkdir h mountPath 511 w = (None, w1) ->
  (result = None <-> runErr o = None \/ already_mounted_pattern o)
  /\ (forall e, result = Some e ->
                exists err,
                  runErr o = Some err
                  /\ e = ErrRunningCommand c (stdout o) (stderr o) err).
Proof.
  cbv zeta. intros Hd. rewrite exec_ensureMountLV, Hd. cbn [result_of fst].
  unfold already_mounted_pattern, mentions.
  destruct (runErr _) as [[code|]|].
  - destruct (Z.eqb_spec code 32) as [->|Hne]; cbn [andb].
    + destruct (strings.Contains _ _); split.
      * split; [intros _; right; now split | reflexivity].
      * discriminate.
      * split; [discriminate | intros [H|[_ H]]; discriminate].
      * intros e [= <-]. now eexists.
    + split.
      * split; [discriminate | intros [H|[H _]]; [discriminate|]].
        inversion H. congruence.
      * intros e [= <-]. now eexists.
  - split.
    + split; [discriminate | intros [H|[H _]]; discriminate].
    + intros e [= <-]. now eexists.
  - split; [split; [now left | reflexivity] | discriminate].
Qed.

(** X8.  The already-mounted phrase counts wherever it stands in the
    standard error of the mount command: with exit code 32 and the
    directory made, [ensureMountLV] succeeds whatever precedes and
    follows the phrase. *)
Theorem ensureMountLV_phrase_anywhere
  (vgName lvName mountPath pre post : string) (w w1 : W) :
  let o := fst (host_run h (mount_command vgName lvName mountPath) w1) in
  host_mkdir h mountPath 511 w = (None, w1) ->
  runErr o = Some (ExitError 32) ->
  stderr o = pre ++ "already mounted on" ++ post ->
  result_of (exec h (ensureMountLV vgName lvName mountPath) w) = None.
Proof.
  cbv zeta. intros Hd He Hs. rewrite exec_ensureMountLV, Hd.
  cbn [result_of fst]. rewrite He, Hs, Contains_app. reflexivity.
Qed.

(** X9.  A command that ends otherwise than by an exit code (it could
    not be started, or its context was cancelled) is never taken for
    not-found or already-mounted: the query and the mount both return the
    error of the command, whatever the name and the captured streams. *)
Theorem start_failure_is_never_absorbed
  (volumeName vgName lvName mountPath : string) (w w0 w1 : W) :
  let q := lvs_command volumeName in
  let m := mount_command vgName lvName mountPath in
  (runErr (fst (host_run h q w)) = Some OtherRunError ->
   result_of (exec h (runLVSReport Unmarshal volumeName) w)
   = Err (ErrRunningCommand q (stdout (fst (host_run h q w)))
            (stderr (fst (host_run h q w))) OtherRunError))
  /\ (host_mkdir h mountPath 511 w0 = (None, w1) ->
      runErr (fst (host_run h m w1)) = Some OtherRunError ->
      result_of (exec h (ensureMountLV vgName lvName mountPath) w0)
      = Some (ErrRunningCommand m (stdout (fst (host_run h m w1)))
                (stderr (fst (host_run h m w1))) OtherRunError)).
Proof.
  cbv zeta. split.
  - intros He. apply runLVSReport_escalates; [exact He|].
    intros (H & _). congruence.
  - intros Hd He. rewrite exec_ensureMountLV, Hd. cbn [result_of fst].
    now rewrite He.
Qed.

(** *** Finding *)

Lemma exec_findVolumeByLVName (l : LVM) (lvName : string) (w : W) :
  let path := "/volumes/" ++ vg l ++ "/" ++ lvName in
  let q := exec h (runLVSReport Unmarshal (vg l ++ "/" ++ lvName)) w in
  exec h (findVolumeByLVName Unmarshal l lvName) w
  = match result_of q with
    | Err e => (Err e, world_of q, calls_of q)
    | Ok rep =>
        match LogicalVolumes rep with
        | [] => (Ok None, world_of q, calls_of q)
        | [lv0] =>
            let m := exec h (ensureMountLV (vg l) (LogicalVolumeName lv0) path)
                       (world_of q) in
            (match result_of m with
             | Some err => Err err
             | None => Ok (Some {| volumePath := path; info := lv0 |})
             end, world_of m, (calls_of q ++ calls_of m)%list)
        | _ =>
            (Err (ErrMultipleLVs (List.length (LogicalVolumes rep))),
             world_of q, calls_of q)
        end
    end.
Proof.
  cbv zeta. unfold findVolumeByLVName.
  rewrite exec_bind, exec_findLVInfo.
  destruct (exec h (runLVSReport _ _) w) as [[[rep|e] w1] calls];
    cbn [result_of world_of calls_of fst snd];
    [|cbn [exec]; now rewrite app_nil_r].
  destruct (LogicalVolumes rep) as [|lv0 [|lv1 lvs]];
    [cbn [exec]; now rewrite app_nil_r | | cbn [exec]; now rewrite app_nil_r].
  rewrite exec_bind. cbn [info LogicalVolumeName].
  destruct (exec h (ensureMountLV _ _ _) w1) as [[[err|] w2] calls2];
    cbn [exec result_of world_of calls_of fst snd]; now rewrite app_nil_r.
Qed.

(** X10.  A handle is returned only behind its mount.  When
    [findVolumeByLVName] returns a handle, its path is
    [/volumes/<vg>/<lvName>] for the name asked for, its record is the
    single record of the query, and the run was the query, the making of
    that path and the mount, on that path, of the device of the volume
    as the record names it. *)
Theorem findVolumeByLVName_handle
  (l : LVM) (lvName : string) (w w' : W) (vol : LVMVolume)
  (calls : list Call) :
  exec h (findVolumeByLVName Unmarshal l lvName) w
  = (Ok (Some vol), w', calls) ->
  volumePath vol = "/volumes/" ++ vg l ++ "/" ++ lvName
  /\ (exists rep,
         result_of (exec h (runLVSReport Unmarshal (vg l ++ "/" ++ lvName)) w)
         = Ok rep
         /\ LogicalVolumes rep = [info vol])
  /\ calls
     = [Ran (lvs_command (vg l ++ "/" ++ lvName));
        MadeDir (volumePath vol) 511;
        Ran (mount_command (vg l) (LogicalVolumeName (info vol))
               (volumePath vol))].
Proof.
  rewrite exec_findVolumeByLVName. cbv zeta.
  destruct (exec_runLVSReport_shape (vg l ++ "/" ++ lvName) w) as [r ->].
  cbn [result_of world_of calls_of fst snd].
  destruct r as [rep|e]; [|discriminate].
  destruct (LogicalVolumes rep) as [|lv0 [|lv1 lvs]] eqn:E; try discriminate.
  rewrite exec_ensureMountLV.
  destruct (host_mkdir h _ 511 _) as [[err|] w1];
    cbn [result_of world_of calls_of fst snd]; [discriminate|].
  destruct (match runErr _ with Some _ => _ | None => _ end);
    [discriminate|].
  intros [= <- <- <-]. cbn [volumePath info].
  split; [reflexivity|]. split; [|reflexivity]. now exists rep.
Qed.

Lemma findVolumeByLVName_calls (l : LVM) (lvName : string) (w : W) :
  runs_only ["/sbin/lvs"; "/bin/mount"]
    (calls_of (exec h (findVolumeByLVName Unmarshal l lvName) w))
  /\ (List.length (calls_of (exec h (findVolumeByLVName Unmarshal l lvName) w))
      <= 3)%nat.
Proof.
  rewrite exec_findVolumeByLVName. cbv zeta.
  destruct (exec_runLVSReport_shape (vg l ++ "/" ++ lvName) w) as [r ->].
  cbn [result_of world_of calls_of fst snd].
  assert (Hq : runs_only ["/sbin/lvs"; "/bin/mount"]
                 [Ran (lvs_command (vg l ++ "/" ++ lvName))]).
  { repeat constructor. }
  destruct r as [rep|e]; [|split; [exact Hq | simpl; lia]].
  destruct (LogicalVolumes rep) as [|lv0 [|lv1 lvs]];
    try (split; [exact Hq | simpl; lia]).
  rewrite exec_ensureMountLV.
  destruct (host_mkdir h _ 511 _) as [[err|] w1];
    cbn [calls_of snd app]; split; try (simpl; lia);
    repeat constructor; simpl; tauto.
Qed.

(** X11.  Finding a volume only reads and mounts: whatever the host
    answers, the commands [findVolumeByVolumeID] runs are [lvs] and
    [mount], in at most three calls with the directory, and never a
    command that creates, formats, unmounts or removes. *)
Theorem findVolumeByVolumeID_runs_only_lvs_and_mount
  (l : LVM) (volumeID : string) (w : W) :
  let calls :=
    calls_of (exec h (findVolumeByVolumeID Unmarshal l volumeID) w) in
  runs_only ["/sbin/lvs"; "/bin/mount"] calls
  /\ (List.length calls <= 3)%nat.
Proof.
  cbv zeta. unfold findVolumeByVolumeID. apply findVolumeByLVName_calls.
Qed.

(** X12.  An error of the query goes through [findVolumeByVolumeID] as
    it is: the same error is returned, not wrapped, and nothing is made
    or mounted. *)
Theorem findVolumeByVolumeID_query_error
  (l : LVM) (volumeID : string) (w : W) (e : error) :
  result_of (exec h (runLVSReport Unmarshal (vg l ++ "/" ++ volumeID)) w)
  = Err e ->
  exec h (findVolumeByVolumeID Unmarshal l volumeID) w
  = (Err e, snd (host_run h (lvs_command (vg l ++ "/" ++ volumeID)) w),
     [Ran (lvs_command (vg l ++ "/" ++ volumeID))]).
Proof.
  unfold findVolumeByVolumeID. rewrite exec_findVolumeByLVName. cbv zeta.
  destruct (exec_runLVSReport_shape (vg l ++ "/" ++ volumeID) w) as [r ->].
  cbn [result_of world_of calls_of fst snd]. now intros ->.
Qed.

(** *** Creating *)

Lemma exec_createThinLV (l : LVM) (lvName size : string)
  (tags : list string) (w : W) :
  let create := lvcreate_command l lvName size tags in
  let format := mkfs_command (vg l) lvName in
  let o1 := fst (host_run h create w) in
  let w1 := snd (host_run h create w) in
  let o2 := fst (host_run h format w1) in
  let w2 := snd (host_run h format w1) in
  let f := exec h (findVolumeByLVName Unmarshal l lvName) w2 in
  exec h (createThinLV Unmarshal l lvName size tags) w
  = match runErr o1 with
    | Some err =>
        (Err (ErrRunningCommand create (stdout o1) (stderr o1) err), w1,
         [Ran create])
    | None =>
        match runErr o2 with
        | Some err =>
            (Err (ErrFormatting
                    (ErrRunningCommand format (stdout o2) (stderr o2) err)),
             w2, [Ran create; Ran format])
        | None =>
            (match result_of f with
             | Err err => Err (ErrGettingLVInfo err)
             | Ok None => Err (ErrNoLVInfo lvName)
             | Ok (Some lv) => Ok (Some lv)
             end, world_of f, Ran create :: Ran format :: calls_of f)
        end
    end.
Proof.
  cbv zeta. unfold createThinLV. rewrite lvcreate_command_eq.
  cbn [bind exec].
  destruct (host_run h (lvcreate_command l lvName size tags) w) as [o1 w1].
  cbn [fst snd]. destruct (runErr o1) as [err|]; [reflexivity|].
  rewrite exec_bind. rewrite (@exec_mkfsExt4 W h (vg l) lvName w1).
  destruct (host_run h (mkfs_command (vg l) lvName) w1) as [o2 w2].
  cbn [fst snd]. destruct (runErr o2) as [err|]; [reflexivity|].
  rewrite exec_bind.
  destruct (exec h (findVolumeByLVName Unmarshal l lvName) w2)
    as [[[[lv|]|e] w3] calls];
    cbn [exec result_of world_of calls_of fst snd app];
    now rewrite app_nil_r.
Qed.

(** X13.  [createThinLV] never returns without a handle and without an
    error: on every host its result is a handle or an error. *)
Theorem createThinLV_never_nil_nil
  (l : LVM) (lvName size : string) (tags : list string) (w : W) :
  result_of (exec h (createThinLV Unmarshal l lvName size tags) w) <> Ok None.
Proof.
  rewrite exec_createThinLV. cbv zeta.
  destruct (runErr _); [discriminate|].
  destruct (runErr _); [discriminate|].
  cbn [result_of fst].
  match goal with
  | |- context [exec h (findVolumeByLVName Unmarshal l lvName) ?w2] =>
      destruct (exec h (findVolumeByLVName Unmarshal l lvName) w2)
        as [[[[lv|]|e] w3] calls]
  end; discriminate.
Qed.

(** X14.  When [lvcreate] fails, [createThinLV] returns its error with
    both captured streams and stops: nothing is formatted, queried or
    mounted. *)
Theorem createThinLV_create_fails
  (l : LVM) (lvName size : string) (tags : list string) (w : W)
  (err : RunError) :
  let create := lvcreate_command l lvName size tags in
  let o := fst (host_run h create w) in
  runErr o = Some err ->
  exec h (createThinLV Unmarshal l lvName size tags) w
  = (Err (ErrRunningCommand create (stdout o) (stderr o) err),
     snd (host_run h create w), [Ran create]).
Proof.
  cbv zeta. intros He. rewrite exec_createThinLV. cbv zeta. now rewrite He.
Qed.

(** X15.  After a create and a format without error, [createThinLV] is
    [findVolumeByLVName] on the host as the two commands left it: a
    handle found is returned as it is, an error of the find is wrapped,
    and no handle becomes the error that the new volume has no LV info. *)
Theorem createThinLV_then_find
  (l : LVM) (lvName size : string) (tags : list string) (w w1 w2 : W)
  (o1 o2 : Completed) :
  let create := lvcreate_command l lvName size tags in
  let format := mkfs_command (vg l) lvName in
  let f := exec h (findVolumeByLVName Unmarshal l lvName) w2 in
  host_run h create w = (o1, w1) -> runErr o1 = None ->
  host_run h format w1 = (o2, w2) -> runErr o2 = None ->
  exec h (createThinLV Unmarshal l lvName size tags) w
  = (match result_of f with
     | Err err => Err (ErrGettingLVInfo err)
     | Ok None => Err (ErrNoLVInfo lvName)
     | Ok (Some lv) => Ok (Some lv)
     end, world_of f, Ran create :: Ran format :: calls_of f).
Proof.
  cbv zeta. intros Hc Hc0 Hm Hm0. rewrite exec_createThinLV. cbv zeta.
  rewrite Hc. cbn [fst snd]. rewrite Hc0, Hm. cbn [fst snd].
  now rewrite Hm0.
Qed.

(** X16.  [createThinLV] never takes anything back: whatever the host
    answers, the commands it runs are [lvcreate], [mkfs.ext4], [lvs] and
    [mount], at most five calls with the directory, and [lvcreate] is
    the first. *)
Theorem createThinLV_runs_only
  (l : LVM) (lvName size : string) (tags : list string) (w : W) :
  let calls :=
    calls_of (exec h (createThinLV Unmarshal l lvName size tags) w) in
  runs_only ["/sbin/lvcreate"; "/sbin/mkfs.ext4"; "/sbin/lvs"; "/bin/mount"]
    calls
  /\ (List.length calls <= 5)%nat
  /\ hd_error calls = Some (Ran (lvcreate_command l lvName size tags)).
Proof.
  cbv zeta. rewrite exec_createThinLV. cbv zeta.
  destruct (runErr _).
  { cbn [calls_of snd]. repeat split; [|simpl; lia].
    repeat constructor. }
  destruct (runErr _).
  { cbn [calls_of snd]. repeat split; [|simpl; lia].
    repeat constructor; simpl; tauto. }
  cbn [calls_of snd hd_error].
  destruct (findVolumeByLVName_calls l lvName
              (snd (host_run h (mkfs_command (vg l) lvName)
                      (snd (host_run h
                              (lvcreate_command l lvName size tags) w)))))
    as [Hruns Hlen].
  repeat split; [|cbn [List.length]; lia].
  constructor; [simpl; tauto|]. constructor; [simpl; tauto|].
  eapply Forall_impl; [|exact Hruns].
  intros [c|path perm]; [|tauto]. simpl. tauto.
Qed.

(** X17.  The create command carries every tag: its arguments are the
    ten fixed ones followed, for each tag in the order given, by
    [--addtag] and the tag. *)
Theorem createThinLV_passes_tags
  (l : LVM) (lvName size : string) (tags : list string) (w : W) :
  exists rest,
    calls_of (exec h (createThinLV Unmarshal l lvName size tags) w)
    = Ran {| Path := "/sbin/lvcreate";
             Args := ("/sbin/lvcreate"
                      :: ["--virtualsize"; size; "--thinpool"; thinpool l;
                          vg l; "--thin"; "--type"; "thin"; "--name"; lvName]
                      ++ flat_map (fun tag => ["--addtag"; tag]) tags)%list |}
      :: rest.
Proof.
  rewrite exec_createThinLV. cbv zeta.
  destruct (runErr _); [now eexists|].
  destruct (runErr _); now eexists.
Qed.

(** *** Deleting *)

(** X18.  [deleteLV] succeeds exactly when the unmount command and then
    the remove command both return no error.  When the unmount went well
    and the remove fails, the error of the remove command is returned
    with both captured streams, and the volume is left unmounted. *)
Theorem deleteLV_succeeds_iff (l : LVM) (volume : LVMVolume) (w : W) :
  let unmount := umount_command (volumePath volume) in
  let remove := lvremove_command l volume in
  let o1 := fst (host_run h unmount w) in
  let w1 := snd (host_run h unmount w) in
  let o2 := fst (host_run h remove w1) in
  let run := exec h (deleteLV l volume) w in
  (result_of run = None <-> runErr o1 = None /\ runErr o2 = None)
  /\ (runErr o1 = None ->
      forall err, runErr o2 = Some err ->
        run = (Some (ErrRunningCommand remove (stdout o2) (stderr o2) err),
               snd (host_run h remove w1), [Ran unmount; Ran remove])).
Proof.
  cbv zeta. unfold deleteLV, ensureUnmountLV, umount_command, lvremove_command.
  cbn [bind exec].
  destruct (host_run h _ w) as [o1 w1]. cbn [fst snd].
  destruct (runErr o1) as [err1|]; cbn [bind exec result_of fst].
  - split; [|discriminate]. split; [discriminate | now intros [H _]].
  - destruct (host_run h _ w1) as [o2 w2]. cbn [fst snd].
    destruct (runErr o2) as [err2|]; cbn [result_of fst]; split.
    + split; [discriminate | now intros [_ H]].
    + now intros _ err [= <-].
    + now split.
    + discriminate.
Qed.

End FurtherManagerProperties.

(** ** Instances of the further properties *)

Lemma FindTag_of_joined_tags_witness :
  Forall (other_tag "owner") ["zone=a"]
  /\ FindTag (tagged "zone=a,owner=team-a,own=x,y") "owner" = ("team-a", true).
Proof.
  assert (Hbefore : Forall (other_tag "owner") ["zone=a"]).
  { constructor; [split; reflexivity | constructor]. }
  split; [exact Hbefore|].
  exact (@FindTag_of_joined_tags (tagged "zone=a,owner=team-a,own=x,y")
           "owner" "team-a" ["zone=a"] ["own=x,y"]
           eq_refl Hbefore eq_refl eq_refl).
Defined.

Lemma FindTag_absent_witness :
  FindTag (tagged "zone=a,owner=team-a") "own" = (EmptyString, false)
  /\ FindTag (tagged EmptyString) "owner" = (EmptyString, false).
Proof.
  split.
  - refine (@FindTag_absent (tagged "zone=a,owner=team-a") "own"
              ["zone=a"; "owner=team-a"] eq_refl _).
    repeat constructor.
  - exact (@FindTag_absent (tagged EmptyString) "owner" [] eq_refl
             (Forall_nil _)).
Defined.

Lemma FindTag_sound_witness :
  FindTag (tagged "zone=a,owner=team-a") "owner" = ("team-a", true)
  /\ comma_free "team-a" = true
  /\ exists pre post,
       "zone=a,owner=team-a" = pre ++ ("owner" ++ "=" ++ "team-a") ++ post
       /\ (pre = EmptyString \/ exists pre', pre = pre' ++ ",")
       /\ (post = EmptyString \/ exists post', post = "," ++ post').
Proof.
  split; [reflexivity|].
  exact (@FindTag_sound (tagged "zone=a,owner=team-a") "owner" "team-a" true
           eq_refl).
Defined.

Lemma VolumeSizeBytes_sound_witness :
  VolumeSizeBytes (sized "1073741824b") = Ok 1073741824
  /\ fits_int64 1073741824
  /\ exists p suffix,
       "1073741824b" = p ++ suffix
       /\ byte_suffix suffix
       /\ decimal_integer p 1073741824.
Proof.
  assert (H : VolumeSizeBytes (sized "1073741824b") = Ok 1073741824)
    by (vm_compute; reflexivity).
  split; [exact H|].
  exact (@VolumeSizeBytes_sound (sized "1073741824b") 1073741824 H).
Defined.

Lemma VolumeSizeBytes_of_decimal_witness :
  decimal 1073741824 = "1073741824"
  /\ VolumeSizeBytes (sized "1073741824B") = Ok 1073741824
  /\ decimal (- 2 ^ 63) = "-9223372036854775808"
  /\ VolumeSizeBytes (sized "-9223372036854775808b") = Ok (- 2 ^ 63)
  /\ VolumeSizeBytes (sized "9223372036854775808B")
     = Err (ParsingSize "9223372036854775808B" strconv.ErrRange).
Proof.
  assert (F1 : fits_int64 1073741824) by (unfold fits_int64; lia).
  assert (F2 : fits_int64 (- 2 ^ 63)) by (unfold fits_int64; lia).
  assert (F3 : ~ fits_int64 (2 ^ 63)) by (unfold fits_int64; lia).
  split; [vm_compute; reflexivity|].
  split.
  { refine (proj1 (@VolumeSizeBytes_of_decimal (sized "1073741824B")
                     1073741824 "B" _ (or_introl eq_refl)) F1).
    vm_compute. reflexivity. }
  split; [vm_compute; reflexivity|].
  split.
  { refine (proj1 (@VolumeSizeBytes_of_decimal
                     (sized "-9223372036854775808b")
                     (- 2 ^ 63) "b" _ (or_intror eq_refl)) F2).
    vm_compute. reflexivity. }
  refine (proj2 (@VolumeSizeBytes_of_decimal (sized "9223372036854775808B")
                   (2 ^ 63) "B" _ (or_introl eq_refl)) F3).
  vm_compute. reflexivity.
Defined.

Lemma ensureMountLV_succeeds_iff_witness :
  result_of (exec fake.host (ensureMountLV "pool" "vol1" "/volumes/pool/vol1")
               vol1_mounted) = None
  /\ result_of (exec fake.host
                  (ensureMountLV "pool" "vol1" "/volumes/pool/vol1")
                  vol1_unmounted) = None
  /\ exists err,
       result_of (exec fake.host
                    (ensureMountLV "pool" "vol1" "/volumes/pool/vol1")
                    vol1_unformatted)
       = Some (ErrRunningCommand
                 (mount_command "pool" "vol1" "/volumes/pool/vol1")
                 EmptyString err (ExitError 32)).
Proof.
  pose (p := "/volumes/pool/vol1").
  pose (c := mount_command "pool" "vol1" p).
  split; [|split].
  - refine (proj2 (proj1 (@ensureMountLV_succeeds_iff
                            _ fake.host "pool" "vol1" p vol1_mounted
                            (snd (host_mkdir fake.host p 511 vol1_mounted))
                            eq_refl)) (or_intror _)).
    split; vm_compute; reflexivity.
  - refine (proj2 (proj1 (@ensureMountLV_succeeds_iff
                            _ fake.host "pool" "vol1" p vol1_unmounted
                            (snd (host_mkdir fake.host p 511 vol1_unmounted))
                            eq_refl)) (or_introl _)).
    vm_compute. reflexivity.
  - destruct (proj2 (@ensureMountLV_succeeds_iff
                       _ fake.host "pool" "vol1" p vol1_unformatted
                       (snd (host_mkdir fake.host p 511 vol1_unformatted))
                       eq_refl)
                _ eq_refl) as [err [_ He]].
    eexists. vm_compute. reflexivity.
Defined.

Lemma ensureMountLV_phrase_anywhere_witness :
  stderr (fst (host_run fake.host
                 (mount_command "pool" "vol1" "/volumes/pool/vol1")
                 vol1_mounted))
  = "mount: /volumes/pool/vol1: /dev/pool/vol1 " ++ "already mounted on"
    ++ " /volumes/pool/vol1."
  /\ result_of (exec fake.host
                  (ensureMountLV "pool" "vol1" "/volumes/pool/vol1")
                  vol1_mounted) = None.
Proof.
  split; [vm_compute; reflexivity|].
  refine (@ensureMountLV_phrase_anywhere
            _ fake.host "pool" "vol1" "/volumes/pool/vol1"
            "mount: /volumes/pool/vol1: /dev/pool/vol1 "
            " /volumes/pool/vol1."
            vol1_mounted
            (snd (host_mkdir fake.host "/volumes/pool/vol1" 511 vol1_mounted))
            eq_refl _ _); vm_compute; reflexivity.
Defined.

Lemma findVolumeByLVName_handle_witness :
  result_of (exec fake.host (findVolumeByLVName json.Unmarshal pool "vol1")
               vol1_unmounted) = Ok (Some vol1)
  /\ volumePath vol1 = "/volumes/pool/vol1"
  /\ calls_of (exec fake.host (findVolumeByLVName json.Unmarshal pool "vol1")
                 vol1_unmounted)
     = [Ran (lvs_command "pool/vol1");
        MadeDir "/volumes/pool/vol1" 511;
        Ran (mount_command "pool" "vol1" "/volumes/pool/vol1")].
Proof.
  pose (run := exec fake.host (findVolumeByLVName json.Unmarshal pool "vol1")
                 vol1_unmounted).
  assert (H : run = (Ok (Some vol1), world_of run, calls_of run))
    by (vm_compute; reflexivity).
  destruct (@findVolumeByLVName_handle json.Unmarshal _ fake.host pool "vol1"
              vol1_unmounted (world_of run) vol1 (calls_of run) H)
    as (Hpath & _ & Hcalls).
  split; [vm_compute; reflexivity|]. split; [exact Hpath | exact Hcalls].
Defined.

Lemma findVolumeByVolumeID_query_error_witness :
  exec scripted.host (findVolumeByVolumeID json.Unmarshal pool "vol1")
    [exited 5 "  Volume group pool not found"]
  = (Err (ErrRunningCommand (lvs_command "pool/vol1") EmptyString
            "  Volume group pool not found" (ExitError 5)),
     [], [Ran (lvs_command "pool/vol1")]).
Proof.
  refine (@findVolumeByVolumeID_query_error json.Unmarshal _ scripted.host
            pool "vol1" [exited 5 "  Volume group pool not found"] _ _).
  vm_compute. reflexivity.
Defined.

Lemma createThinLV_create_fails_witness :
  exists out err,
    exec fake.host
      (createThinLV json.Unmarshal pool "vol1" "1073741824B" ["owner=team-a"])
      vol1_mounted
    = (Err (ErrRunningCommand
              (lvcreate_command pool "vol1" "1073741824B" ["owner=team-a"])
              out err (ExitError 5)),
       vol1_mounted,
       [Ran (lvcreate_command pool "vol1" "1073741824B" ["owner=team-a"])]).
Proof.
  do 2 eexists.
  refine (@createThinLV_create_fails json.Unmarshal _ fake.host pool "vol1"
            "1073741824B" ["owner=team-a"] vol1_mounted (ExitError 5) _).
  vm_compute. reflexivity.
Defined.

Lemma createThinLV_then_find_witness :
  result_of
    (exec fake.host
       (createThinLV json.Unmarshal pool "vol1" "1073741824B" ["owner=team-a"])
       (fake.empty "pool" true))
  = Ok (Some vol1).
Proof.
  pose (create := lvcreate_command pool "vol1" "1073741824B" ["owner=team-a"]).
  pose (format := mkfs_command "pool" "vol1").
  pose (w := fake.empty "pool" true).
  pose (w1 := snd (host_run fake.host create w)).
  pose (w2 := snd (host_run fake.host format w1)).
  pose proof (@createThinLV_then_find json.Unmarshal _ fake.host pool "vol1"
                "1073741824B" ["owner=team-a"] w w1 w2
                (fst (host_run fake.host create w))
                (fst (host_run fake.host format w1))
                eq_refl eq_refl eq_refl eq_refl) as H.
  change (fake.empty "pool" true) with w. rewrite H.
  vm_compute. reflexivity.
Defined.

Lemma createThinLV_format_fails_witness :
  exists out err,
    exec fake.host
      (createThinLV json.Unmarshal pool "vol1" "1073741824B" ["owner=team-a"])
      pool_without_mkfs
    = (Err (ErrFormatting
              (ErrRunningCommand (mkfs_command "pool" "vol1") out err
                 (ExitError 1))),
       vol1_unformatted,
       [Ran (lvcreate_command pool "vol1" "1073741824B" ["owner=team-a"]);
        Ran (mkfs_command "pool" "vol1")]).
Proof.
  pose (create := lvcreate_command pool "vol1" "1073741824B" ["owner=team-a"]).
  pose (format := mkfs_command "pool" "vol1").
  do 2 eexists.
  exact (@createThinLV_format_fails json.Unmarshal _ fake.host pool "vol1"
           "1073741824B" ["owner=team-a"] pool_without_mkfs
           vol1_unformatted vol1_unformatted
           (fst (host_run fake.host create pool_without_mkfs))
           (fst (host_run fake.host format vol1_unformatted))
           (ExitError 1) eq_refl eq_refl eq_refl eq_refl).
Defined.

(** On the recording host, a volume created with the tag [owner=team-a]
    is found again with that tag. *)
Example found_volume_keeps_its_tag :
  match result_of (exec fake.host
                     (findVolumeByVolumeID json.Unmarshal pool "vol1")
                     vol1_mounted) with
  | Ok (Some vol) => FindTag (info vol) "owner" = ("team-a", true)
  | _ => False
  end.
Proof. vm_compute. reflexivity. Qed.

(** ** Deleting again after a remove that failed *)

(** C9.  The code fails where the volume is already unmounted, and
    [deleteLV] brings that about by itself.  On a host where [lvremove]
    fails once, the first [deleteLV] unmounts the volume and returns the
    error of the remove command: the volume is there, not mounted.  The
    same call again stops at the unmount command, which says that the
    path is not mounted: the remove command is not run, the volume stays,
    and the host is as it was, so every further call ends the same. *)
Theorem deleteLV_retry_never_reaches_remove :
  exec flaky.host (deleteLV pool vol1) (vol1_mounted, 1%nat)
  = (Some (ErrRunningCommand (lvremove_command pool vol1) EmptyString
             "  Logical volume pool/vol1 in use." (ExitError 5)),
     (vol1_unmounted, 0%nat),
     [Ran (umount_command "/volumes/pool/vol1");
      Ran (lvremove_command pool vol1)])
  /\ exec flaky.host (deleteLV pool vol1) (vol1_unmounted, 0%nat)
     = (Some (ErrRunningCommand (umount_command "/volumes/pool/vol1")
                EmptyString "umount: /volumes/pool/vol1: not mounted."
                (ExitError 32)),
        (vol1_unmounted, 0%nat),
        [Ran (umount_command "/volumes/pool/vol1")])
  /\ map fake.name (fake.volumes vol1_unmounted) = ["vol1"]
  /\ fst (host_run flaky.host (lvremove_command pool vol1)
            (vol1_unmounted, 0%nat))
     = succeeded ("  Logical volume " ++ json.quoted "pool/vol1"
                  ++ " successfully removed").
Proof.
  split; [vm_compute; reflexivity|]. split; [vm_compute; reflexivity|].
  split; [reflexivity | vm_compute; reflexivity].
Qed.
